(** * nassa: heat-map layout helpers ([nassa/analyses/utils/heatmaps.py])

    A shallow embedding of the layout code of the module: the axis orders
    of [get_axes], the table reordering of [reorder_labels], the triangle
    meshes of [arlequin_plot], the key expansion of [bconf_heatmap], the
    regrouping and the tick positions of [correlation_plot] and the
    category column of [basepair_plot].

    Python values are modelled as follows.
    - [str] is [string]; a character is a string of length one.
    - [int] used as a count or a position is [nat]; a context length, which
      the caller chooses freely, is [Z].
    - a raised exception is the [Raise] case of [result].
    - a [dict] is a [gmap]; a pandas table is a record of column names, row
      labels and rows of cells; table objects live in a store addressed by
      references, as several names can denote one table object. *)

From Stdlib Require Import ZArith Ascii String.
From stdpp Require Import gmap strings list sorting fin_maps.

(** ** Exceptions *)

Inductive exn : Type :=
  | NameError (name : string)
  | KeyError (key : string)
  | TypeError
  | ValueError
  | ZeroDivisionError.

Inductive result (A : Type) : Type :=
  | Ok (a : A)
  | Raise (e : exn).
Arguments Ok {A} a.
Arguments Raise {A} e.

Definition is_ok {A} (r : result A) : bool :=
  match r with Ok _ => true | Raise _ => false end.

(** ** Python strings *)

Module Py.

(** Iterating a [str] yields its characters, each a [str] of length one. *)
Fixpoint chars (s : string) : list string :=
  match s with
  | EmptyString => []
  | String c rest => String c EmptyString :: chars rest
  end.

(** [sep.join(parts)] *)
Fixpoint join (sep : string) (parts : list string) : string :=
  match parts with
  | [] => ""
  | [p] => p
  | p :: rest => p +:+ sep +:+ join sep rest
  end.

(** [str.isspace] on one character with a code point below 256. *)
Definition isspace (c : ascii) : bool :=
  let n := nat_of_ascii c in
  ((9 <=? n) && (n <=? 13)) || ((28 <=? n) && (n <=? 32))
  || (n =? 133) || (n =? 160).

(** [s.split()]: the maximal runs of characters that are not white space.
    [cur] is the run being read, in reverse. *)
Fixpoint split_go (cur : list ascii) (s : string) : list string :=
  match s with
  | EmptyString =>
      match cur with
      | [] => []
      | _ => [string_of_list_ascii (reverse cur)]
      end
  | String c rest =>
      if isspace c then
        match cur with
        | [] => split_go [] rest
        | _ => string_of_list_ascii (reverse cur) :: split_go [] rest
        end
      else split_go (c :: cur) rest
  end.

Definition split (s : string) : list string := split_go [] s.

(** [s[lo:hi]] for non-negative bounds; a slice never raises. *)
Definition slice (lo hi : nat) (s : string) : string :=
  substring lo (hi - lo) s.

End Py.

(** ** [get_axes] *)

(** The row order, lines 15-31. *)
Definition yaxis_of (base : string) : list string :=
  [ base +:+ base; base +:+ "C"; "C" +:+ base; "CC";
    "G" +:+ base; "GC"; "A" +:+ base; "AC";
    base +:+ "G"; base +:+ "A"; "CG"; "CA";
    "GG"; "GA"; "AG"; "AA" ].

(** The column order, lines 32-35: bound for the lengths 4 and 3 only. *)
Definition xaxis_of (subunit_len : Z) (base : string) : option (list string) :=
  if (subunit_len =? 4)%Z then Some (reverse (yaxis_of base))
  else if (subunit_len =? 3)%Z then Some (Py.split ("G A C " +:+ base))
  else None.

(** [[b.join(f) for f in yaxis for b in xaxis]], line 40. *)
Definition join_axes (xaxis yaxis : list string) : list string :=
  f ← yaxis; b ← xaxis; [Py.join b (Py.chars f)].

(** Reading the unbound name [xaxis] in the comprehension raises; the
    row order is never empty, so the name is always read. *)
Definition get_axes (subunit_len : Z) (base : string)
  : result (list string * list string * list string) :=
  let yaxis := yaxis_of base in
  match xaxis_of subunit_len base with
  | Some xaxis => Ok (xaxis, yaxis, join_axes xaxis yaxis)
  | None => Raise (NameError "xaxis")
  end.

(** ** Tables *)

(** A cell holds a string, a number or the missing-value marker.  The
    layout code only moves payload numbers around and never computes with
    them, so an integer stands for any numeric payload. *)
Inductive cell : Type :=
  | Str (s : string)
  | Num (z : Z)
  | NaN.

#[export] Instance cell_eq_dec : EqDecision cell.
Proof. solve_decision. Defined.

Definition isna (c : cell) : bool :=
  match c with NaN => true | _ => false end.

(** A row is its index label and one cell per column. *)
Abbreviation row := (cell * list cell)%type (only parsing).

Record DataFrame : Type := mkDF {
  columns : list string;
  rows : list row
}.

Definition index (df : DataFrame) : list cell := (rows df).*1.
Definition values (df : DataFrame) : list (list cell) := (rows df).*2.

(** The table invariant: distinct column labels, one cell per column. *)
Definition wf (df : DataFrame) : Prop :=
  NoDup (columns df) ∧ Forall (λ r : row, length r.2 = length (columns df)) (rows df).

(** Position of a column label. *)
Fixpoint col_pos (name : string) (cols : list string) : option nat :=
  match cols with
  | [] => None
  | c :: rest =>
      if decide (c = name) then Some 0 else S <$> col_pos name rest
  end.

Definition cell_at (p : nat) (r : row) : cell := default NaN (r.2 !! p).

(** Removal of the cell at one position. *)
Definition remove_at {A} (p : nat) (l : list A) : list A :=
  take p l ++ drop (S p) l.

(** [RangeIndex(n)] *)
Definition range_index (n : nat) : list cell :=
  (λ i, Num (Z.of_nat i)) <$> seq 0 n.

Module Pd.

(** [pd.DataFrame(vals, columns=[name])] *)
Definition of_column (name : string) (vals : list cell) : DataFrame :=
  mkDF [name] (zip (range_index (length vals)) ((λ v, [v]) <$> vals)).

(** [df[name]]: the cells of one column. *)
Definition getitem (df : DataFrame) (name : string) : result (list cell) :=
  match col_pos name (columns df) with
  | Some p => Ok (cell_at p <$> rows df)
  | None => Raise (KeyError name)
  end.

(** [df[name] = vals], for a series [vals] computed from [df] itself and so
    carrying its index: an existing column is overwritten in place, a new
    one is appended. *)
Definition setitem (df : DataFrame) (name : string) (vals : list cell) : DataFrame :=
  match col_pos name (columns df) with
  | Some p =>
      mkDF (columns df) (zip_with (λ (r : row) v, (r.1, <[p:=v]> r.2)) (rows df) vals)
  | None =>
      mkDF (columns df ++ [name])
           (zip_with (λ (r : row) v, (r.1, r.2 ++ [v])) (rows df) vals)
  end.

(** [df.drop(name, axis=1)] *)
Definition drop (df : DataFrame) (name : string) : result DataFrame :=
  match col_pos name (columns df) with
  | Some p =>
      Ok (mkDF (remove_at p (columns df))
               ((λ r : row, (r.1, remove_at p r.2)) <$> rows df))
  | None => Raise (KeyError name)
  end.

(** [df.reset_index(drop=True)] *)
Definition reset_index (df : DataFrame) : DataFrame :=
  mkDF (columns df) (zip (range_index (length (rows df))) (values df)).

(** [series.map(d)] for a dict [d] with string keys: a value that is not a
    key of [d] becomes the missing value. *)
Definition map_dict (d : gmap string nat) (c : cell) : cell :=
  match c with
  | Str s =>
      match d !! s with
      | Some i => Num (Z.of_nat i)
      | None => NaN
      end
  | _ => NaN
  end.

(** The order used to sort the values of one column: numbers by value,
    strings by code point.  Python refuses to compare a number with a
    string, so a column that holds both is not [sortable]; the cases that
    mix them, and those of the missing value, only make the order total. *)
Definition cell_leb (a b : cell) : bool :=
  match a, b with
  | Num x, Num y => (x <=? y)%Z
  | Str x, Str y => String.leb x y
  | _, NaN => true
  | NaN, _ => false
  | Num _, Str _ => true
  | Str _, Num _ => false
  end.

Definition sortable (vals : list cell) : bool :=
  forallb (λ c, match c with Str _ => false | _ => true end) vals
  || forallb (λ c, match c with Num _ => false | _ => true end) vals.

Definition key_le (a b : cell * row) : Prop := Is_true (cell_leb a.1 b.1).

#[export] Instance key_le_dec : RelDecision key_le.
Proof. intros a b. unfold key_le. apply _. Defined.

(** The rows taken in the order of their values [vals], as
    [sort_values] orders them with the defaults [ascending=True] and
    [na_position="last"]: the rows with a value come first in ascending
    order of the value, the rows without one follow in their original
    order.  numpy's default sort kind leaves the order of rows with equal
    values open; the merge sort used here fixes one such order, and no
    statement below depends on that choice. *)
Definition take_sorted (vals : list cell) (rs : list row) : list row :=
  let items := zip vals rs in
  let present := filter (λ it : cell * row, isna it.1 = false) items in
  let missing := filter (λ it : cell * row, isna it.1 = true) items in
  (merge_sort key_le present ++ missing).*2.

(** [df.sort_values(by=name)] *)
Definition sort_values (df : DataFrame) (name : string) : result DataFrame :=
  match getitem df name with
  | Raise e => Raise e
  | Ok vals =>
      if sortable vals then Ok (mkDF (columns df) (take_sorted vals (rows df)))
      else Raise TypeError
  end.

(** The dtype of a column is the one pandas infers from its cells: object
    as soon as a cell holds a string, numeric when the cells are numbers
    and missing values only. *)
Definition is_str (c : cell) : bool :=
  match c with Str _ => true | _ => false end.

Definition is_num (c : cell) : bool :=
  match c with Num _ => true | _ => false end.

Definition numeric_dtype (cells : list cell) : bool :=
  negb (existsb is_str cells).

(** An object column whose inferred kind is string or mixed: strings,
    with or without missing values, and no number. *)
Definition string_like (cells : list cell) : bool :=
  existsb is_str cells && negb (existsb is_num cells).

(** The check of the key dtypes that [merge] makes before it joins: it is
    skipped when one of the two key columns is empty, and it refuses to
    join a numeric key column with a string-like one. *)
Definition keys_mergeable (lk rk : list cell) : bool :=
  match lk, rk with
  | [], _ | _, [] => true
  | _, _ =>
      negb ((numeric_dtype lk && string_like rk)
            || (string_like lk && numeric_dtype rk))
  end.

(** [left.merge(right, how="right", on=name)] for a right table that is
    the key column alone (the table built at lines 150-152): a key column
    that [left] lacks is a [KeyError], key columns of clashing dtypes are
    a [ValueError]; otherwise there is one output row per pair of a right
    key and a left row with that key, in the order of the right keys; a
    right key without a left row gives one row that has the key and is
    missing everywhere else.  The result has a fresh index. *)
Definition nan_row (p : nat) (width : nat) (k : cell) : list cell :=
  <[p:=k]> (replicate width NaN).

Definition merge_right (left : DataFrame) (name : string) (right : DataFrame)
  : result DataFrame :=
  match col_pos name (columns left), getitem right name with
  | None, _ => Raise (KeyError name)
  | _, Raise e => Raise e
  | Some p, Ok keys =>
      if keys_mergeable (cell_at p <$> rows left) keys then
        let joined :=
          k ← keys;
          match filter (λ r : row, cell_at p r = k) (rows left) with
          | [] => [nan_row p (length (columns left)) k]
          | matches => matches.*2
          end in
        Ok (mkDF (columns left) (zip (range_index (length joined)) joined))
      else Raise ValueError
  end.

End Pd.

(** ** The object store *)

(** A name denotes a table object through a reference.  A method that
    returns a new table allocates a new object; an item assignment changes
    the object the name denotes, for every holder of the reference. *)
Abbreviation ref := nat (only parsing).
Abbreviation store := (list DataFrame) (only parsing).

(** A computation reads and changes the store and returns or raises; the
    changes made before an exception remain. *)
Definition M (A : Type) : Type := store → result A * store.

Definition ret {A} (a : A) : M A := λ s, (Ok a, s).

Definition bind {A B} (m : M A) (k : A → M B) : M B :=
  λ s, match m s with
       | (Ok a, s') => k a s'
       | (Raise e, s') => (Raise e, s')
       end.

#[export] Instance M_ret : MRet M := @ret.
#[export] Instance M_bind : MBind M := λ A B k m, bind m k.

Definition lift {A} (r : result A) : M A := λ s, (r, s).

Definition read (r : ref) : M DataFrame :=
  λ s, match s !! r with
       | Some df => (Ok df, s)
       | None => (Raise (NameError "df"), s)
       end.

Definition write (r : ref) (df : DataFrame) : M unit :=
  λ s, (Ok tt, <[r:=df]> s).

Definition alloc (df : DataFrame) : M ref :=
  λ s, (Ok (length s), s ++ [df]).

(** ** [reorder_labels] *)

(** [dict(zip(order, range(len(order))))]: a key that occurs twice keeps
    its last position. *)
Definition sorted_index (order : list string) : gmap string nat :=
  foldl (λ d kv, <[kv.1:=kv.2]> d) ∅ (zip order (seq 0 (length order))).

Definition reorder_labels (df : ref) (subunit_name : string)
    (tetramer_order : list string) : M ref :=
  let d := sorted_index tetramer_order in
  (* line 47: the rank column is assigned on the caller's object *)
  t ← read df;
  keys ← lift (Pd.getitem t subunit_name);
  _ ← write df (Pd.setitem t "subunit_rank" (Pd.map_dict d <$> keys));
  (* line 48 *)
  t ← read df;
  t ← lift (Pd.sort_values t "subunit_rank");
  df ← alloc t;
  (* line 49 *)
  t ← read df;
  t ← lift (Pd.drop t "subunit_rank");
  df ← alloc t;
  (* line 50 *)
  t ← read df;
  df ← alloc (Pd.reset_index t);
  mret df.

(** ** [arlequin_plot]: the split-triangle mesh *)

(** [np.meshgrid(np.arange(M + 1), np.arange(N + 1))], each array
    flattened by [ravel]: the abscissa and the ordinate of every lattice
    point, row by row. *)
Definition xs_ravel (M N : nat) : list nat :=
  j ← seq 0 (N + 1); i ← seq 0 (M + 1); [i].

Definition ys_ravel (M N : nat) : list nat :=
  j ← seq 0 (N + 1); i ← seq 0 (M + 1); [j].

(** Lines 84-87. *)
Definition upper_triangle (M N : nat) : list (nat * nat * nat) :=
  j ← seq 0 N; i ← seq 0 M;
  [(i + j*(M+1), i+1 + j*(M+1), i+1 + (j+1)*(M+1))].

Definition lower_triangle (M N : nat) : list (nat * nat * nat) :=
  j ← seq 0 N; i ← seq 0 M;
  [(i + j*(M+1), i+1 + (j+1)*(M+1), i + (j+1)*(M+1))].

(** [s * n] for a string [s]; a count that is not positive gives the empty
    string. *)
Fixpoint str_repeat (s : string) (n : nat) : string :=
  match n with
  | 0 => ""
  | S n' => s +:+ str_repeat s n'
  end.

Record layout : Type := mkLayout {
  l_xaxis : list string;
  l_yaxis_labels : list string;
  l_sz1 : list cell;
  l_sz2 : list cell;
  l_xs : list nat;
  l_ys : list nat;
  l_upper : list (nat * nat * nat);
  l_lower : list (nat * nat * nat)
}.

(** Lines 65-89 of [arlequin_plot]: everything handed to the drawing
    calls.  The exponent is not negative here, as [get_axes] has returned. *)
Definition arlequin_plot (df : ref) (unit_name : string) (unit_len : Z)
    (base : string) : M layout :=
  '(xaxis, yaxis, tetramer_order) ← lift (get_axes unit_len base);
  df ← reorder_labels df unit_name tetramer_order;
  let sep := str_repeat "." (Z.to_nat (unit_len - 2)) in
  let yaxis_labels := (λ f, Py.join sep (Py.chars f)) <$> yaxis in
  t ← read df;
  sz1 ← lift (Pd.getitem t "col1");
  sz2 ← lift (Pd.getitem t "col2");
  let N := Z.to_nat (4 ^ 2) in
  let M := Z.to_nat (4 ^ (unit_len - 2)) in
  mret (mkLayout xaxis yaxis_labels sz1 sz2
         (xs_ravel M N) (ys_ravel M N)
         (upper_triangle M N) (lower_triangle M N)).

(** ** [bconf_heatmap] *)

(** Lines 132-148. *)
Definition bconf_axis (base : string) : list string :=
  [ "GG"; "GA"; "AG"; "AA"; "GC"; "G" +:+ base; "A" +:+ base; "AC";
    "CA"; base +:+ "A"; base +:+ "G"; "CG"; "CC"; "C" +:+ base;
    base +:+ "C"; base +:+ base ].

(** Lines 149-152: the canonical keys. *)
Definition bconf_order (base : string) : list string :=
  let xaxis := bconf_axis base in
  let yaxis := xaxis in
  join_axes xaxis yaxis.

(** Line 153: the table after the right join. *)
Definition bconf_table (df : DataFrame) (base : string) : result DataFrame :=
  Pd.merge_right df "tetramer" (Pd.of_column "tetramer" (Str <$> bconf_order base)).

(** [a.reshape((r, c))] of a flat array, row by row. *)
Fixpoint chunks {A} (c : nat) (r : nat) (l : list A) : list (list A) :=
  match r with
  | 0 => []
  | S r' => take c l :: chunks c r' (drop c l)
  end.

Definition reshape {A} (r c : nat) (l : list A) : result (list (list A)) :=
  if decide (length l = r * c) then Ok (chunks c r l) else Raise ValueError.

(** Lines 153 and 166: the grid of percentages handed to [imshow].  The
    join result is bound to the local name only. *)
Definition bconf_heatmap (df : DataFrame) (base : string)
  : result (list (list cell)) :=
  match bconf_table df base with
  | Raise e => Raise e
  | Ok t =>
      match Pd.getitem t "pct" with
      | Raise e => Raise e
      | Ok pct => reshape 16 16 pct
      end
  end.

(** ** [correlation_plot] *)

(** A two-level index: for every entry the outer label (the coordinate)
    and the inner label (the oligomer unit). *)
Abbreviation MultiIndex := (list (string * string)) (only parsing).

(** [index.get_level_values(0)] *)
Definition get_level_values0 (ix : MultiIndex) : list string := ix.*1.

(** [list(set(labels))]: the distinct labels in an order that the hash
    seed of the run decides; any listing without repetition can occur. *)
Definition set_listing (labels listing : list string) : Prop :=
  NoDup listing ∧ ∀ x, x ∈ listing ↔ x ∈ labels.

(** A square matrix with the same kind of index on both axes. *)
Record Matrix : Type := mkMatrix {
  m_index : MultiIndex;
  m_columns : MultiIndex;
  m_values : list (list cell)
}.

(** Selection of positions, in the order given. *)
Definition take_pos {A} (positions : list nat) (l : list A) : list A :=
  omap (λ p, l !! p) positions.

Definition take_rows (positions : list nat) (m : Matrix) : Matrix :=
  mkMatrix (take_pos positions (m_index m))
           (m_columns m)
           (take_pos positions (m_values m)).

Definition take_cols (positions : list nat) (m : Matrix) : Matrix :=
  mkMatrix (m_index m)
           (take_pos positions (m_columns m))
           (take_pos positions <$> m_values m).

(** The positions of the entries whose outer label is [c]. *)
Definition positions_of (ix : MultiIndex) (c : string) : list nat :=
  (filter (λ pe : nat * (string * string), pe.2.1 = c)
          (zip (seq 0 (length ix)) ix)).*1.

(** [.loc[labels]] on rows and [[labels]] on columns: the entries under
    each outer label, label after label in the order of [labels]; a label
    without any entry is a [KeyError]. *)
Fixpoint loc_positions (ix : MultiIndex) (labels : list string)
  : result (list nat) :=
  match labels with
  | [] => Ok []
  | c :: rest =>
      match positions_of ix c with
      | [] => Raise (KeyError c)
      | ps =>
          match loc_positions ix rest with
          | Ok qs => Ok (ps ++ qs)
          | Raise e => Raise e
          end
      end
  end.

(** [sort_index(level=1)]: with the default [sort_remaining=True] the
    entries are ordered by the inner label first and by the outer label
    among equal inner labels, labels compared as strings.  The sort is
    stable: a repeated entry keeps its place relative to its copies, which
    the comparison of positions expresses. *)
Definition entry_leb (a b : nat * (string * string)) : bool :=
  match String.compare a.2.2 b.2.2 with
  | Lt => true
  | Gt => false
  | Eq =>
      match String.compare a.2.1 b.2.1 with
      | Lt => true
      | Gt => false
      | Eq => a.1 <=? b.1
      end
  end.

Definition entry_le (a b : nat * (string * string)) : Prop :=
  Is_true (entry_leb a b).

#[export] Instance entry_le_dec : RelDecision entry_le.
Proof. intros a b. unfold entry_le. apply _. Defined.

Definition sort_level1_positions (ix : MultiIndex) : list nat :=
  (merge_sort entry_le (zip (seq 0 (length ix)) ix)).*1.

(** Lines 197-198. *)
Definition reorder_dataset (coordinates : list string) (data : Matrix)
  : result Matrix :=
  match loc_positions (m_index data) coordinates with
  | Raise e => Raise e
  | Ok ps =>
      let data := take_rows ps data in
      match loc_positions (m_columns data) coordinates with
      | Raise e => Raise e
      | Ok qs =>
          let data := take_cols qs data in
          let data := take_rows (sort_level1_positions (m_index data)) data in
          let data := take_cols (sort_level1_positions (m_columns data)) data in
          Ok data
      end
  end.

(** [itertools.combinations_with_replacement(l, r=2)] *)
Fixpoint combinations_with_replacement {A} (l : list A) : list (A * A) :=
  match l with
  | [] => []
  | x :: rest => ((λ y, (x, y)) <$> (x :: rest)) ++ combinations_with_replacement rest
  end.

(** [np.arange(start, stop, step)] on integers with a step that is not
    negative; a zero step is an error. *)
Definition arange (start stop step : Z) : result (list Z) :=
  if (step =? 0)%Z then Raise ZeroDivisionError
  else
    let count := Z.to_nat ((stop - start + step - 1) / step) in
    Ok ((λ k, start + Z.of_nat k * step)%Z <$> seq 0 count).

(** Lines 242-244, from [len(data)] and [len(coordinates)]. *)
Definition tick_locs (len_data len_coordinates : Z) : result (list Z) :=
  if (2 * len_coordinates =? 0)%Z then Raise ZeroDivisionError
  else
    let start := (len_data / (2 * len_coordinates))%Z in
    let step := (2 * start)%Z in
    arange start (len_data - 1) step.

Record corr_layout : Type := mkCorr {
  c_data : Matrix;
  c_panels : list (string * string);
  c_locs : list Z;
  c_ticklabels : list string
}.

(** [correlation_plot], for the listing [coordinates] that line 196
    produced: the reordered matrix, the panel pairs of the loop, and the
    tick positions and labels of the combined figure. *)
Definition correlation_plot (coordinates : list string) (data : Matrix)
  : result corr_layout :=
  match reorder_dataset coordinates data with
  | Raise e => Raise e
  | Ok data =>
      match tick_locs (Z.of_nat (length (m_values data)))
                      (Z.of_nat (length coordinates)) with
      | Raise e => Raise e
      | Ok locs =>
          Ok (mkCorr data (combinations_with_replacement coordinates) locs coordinates)
      end
  end.

(** ** [basepair_plot] *)

(** [s[1:3]] on an index label; a label that is not a string cannot be
    sliced. *)
Definition category_of (label : cell) : result string :=
  match label with
  | Str s => Ok (Py.slice 1 3 s)
  | _ => Raise TypeError
  end.

Fixpoint categories (labels : list cell) : result (list string) :=
  match labels with
  | [] => Ok []
  | l :: rest =>
      match category_of l, categories rest with
      | Ok c, Ok cs => Ok (c :: cs)
      | Raise e, _ => Raise e
      | _, Raise e => Raise e
      end
  end.

(** [series.unique()]: the distinct values in order of first occurrence. *)
Fixpoint unique (l : list string) : list string :=
  match l with
  | [] => []
  | x :: rest => x :: filter (λ y, y ≠ x) (unique rest)
  end.

(** [data[data["category"] == cat]] *)
Definition select_category (df : DataFrame) (cat : string) : result DataFrame :=
  match col_pos "category" (columns df) with
  | Some p => Ok (mkDF (columns df) (filter (λ r : row, cell_at p r = Str cat) (rows df)))
  | None => Raise (KeyError "category")
  end.

Fixpoint category_panels (df : DataFrame) (cats : list string)
  : result (list (string * DataFrame)) :=
  match cats with
  | [] => Ok []
  | cat :: rest =>
      match select_category df cat with
      | Raise e => Raise e
      | Ok cat_df =>
          match Pd.drop cat_df "category", category_panels df rest with
          | Ok cat_df, Ok ps => Ok ((cat, cat_df) :: ps)
          | Raise e, _ => Raise e
          | _, Raise e => Raise e
          end
      end
  end.

(** [basepair_plot]: the matrix drawn for every category and the combined
    matrix.  Line 277 assigns the category column on the caller's object;
    lines 280-281 and 311-315 work on new objects. *)
Definition basepair_plot (data : ref) : M (list (string * DataFrame) * DataFrame) :=
  t ← read data;
  category ← lift (categories (index t));
  _ ← write data (Pd.setitem t "category" (Str <$> category));
  t ← read data;
  panels ← lift (category_panels t (unique category));
  t ← lift (Pd.sort_values t "category");
  t ← lift (Pd.drop t "category");
  mret (panels, t).

(** ** Reference definitions

    What the statements below compare the code with. *)

(** The row order of the publication, for the flexible symbol T. *)
Definition published_row_order : list string :=
  [ "TT"; "TC"; "CT"; "CC"; "GT"; "GC"; "AT"; "AC";
    "TG"; "TA"; "CG"; "CA"; "GG"; "GA"; "AG"; "AA" ].

(** A column label placed between the two symbols of a row label. *)
Definition insert_between (r c : string) : string :=
  substring 0 1 r +:+ c +:+ substring 1 1 r.

(** The keys of every row label paired with every column label, rows in
    the outer loop. *)
Definition cartesian_join (row_order col_order : list string) : list string :=
  r ← row_order; c ← col_order; [insert_between r c].

(** A symbol that can stand for the flexible base: one character that is
    neither one of the three fixed bases nor white space. *)
Definition flexible (c : ascii) : bool :=
  negb (Ascii.eqb c "A" || Ascii.eqb c "C" || Ascii.eqb c "G" || Py.isspace c).

(** The flat position of the lattice point in column [i] of row [j]. *)
Definition flat (M i j : nat) : nat := i + j * (M + 1).

(** The rank that [reorder_labels] gives a row whose key is in the column
    at position [p], and the order of rows by rank. *)
Definition rank_of (order : list string) (p : nat) (r : row) : cell :=
  Pd.map_dict (sorted_index order) (cell_at p r).

Definition rank_le (order : list string) (p : nat) (a b : row) : Prop :=
  Is_true (Pd.cell_leb (rank_of order p a) (rank_of order p b)).

(** The key of a row is one of the keys of the order. *)
Definition key_in_order (order : list string) (p : nat) (r : row) : Prop :=
  ∃ k, cell_at p r = Str k ∧ k ∈ order.

(** What the join holds for the key [k]: the cells of the left row with
    that key, or the key alone among missing values. *)
Definition joined_for (rs : list row) (p width : nat) (k : cell)
    (cells : list cell) : Prop :=
  ((k ∉ cell_at p <$> rs) ∧ cells = Pd.nan_row p width k)
  ∨ (cells ∈ rs.*2 ∧ default NaN (cells !! p) = k).

(** Equal labels stand next to each other: every label forms one block. *)
Fixpoint compress (l : list string) : list string :=
  match l with
  | [] => []
  | x :: rest =>
      match rest with
      | y :: _ => if String.eqb x y then compress rest else x :: compress rest
      | [] => [x]
      end
  end.

(** The order of entries by unit first and by coordinate among the entries
    of one unit. *)
Definition unit_first (a b : string * string) : Prop :=
  match String.compare a.2 b.2 with
  | Lt => True
  | Gt => False
  | Eq => Is_true (String.leb a.1 b.1)
  end.

(** The middle position of each of [K] blocks of [B] consecutive rows. *)
Definition block_centers (B K : Z) : list Z :=
  (λ i, Z.of_nat i * B + B / 2)%Z <$> seq 0 (Z.to_nat K).

(** The category of a row of [basepair_plot]: the second and third
    character of its index label. *)
Definition category_str (r : row) : string :=
  match r.1 with
  | Str s => Py.slice 1 3 s
  | _ => ""
  end.

Definition is_Str (c : cell) : Prop := ∃ s, c = Str s.

(** ** Example tables *)

(** Three keys, one of them in no axis order. *)
Definition absent_key_table : DataFrame :=
  mkDF ["tetramer"; "col1"]
       [ (Num 0, [Str "AAAA"; Num 5]);
         (Num 1, [Str "XXXX"; Num 6]);
         (Num 2, [Str "TAAT"; Num 7]) ].

(** A table that already has a column named as the rank column. *)
Definition ranked_table : DataFrame :=
  mkDF ["tetramer"; "subunit_rank"] [ (Num 0, [Str "AAAA"; Num 7]) ].

(** A table indexed by tetramers, as [basepair_plot] takes it. *)
Definition basepair_table : DataFrame :=
  mkDF ["shift"] [ (Str "ATGC", [Num 5]); (Str "CCGA", [Num 6]) ].

(** Two pairs of scores, as [arlequin_plot] takes them. *)
Definition arlequin_table : DataFrame :=
  mkDF ["tetramer"; "col1"; "col2"]
       [ (Num 0, [Str "AAAA"; Num 1; Num 0]);
         (Num 1, [Str "TAAT"; Num 0; Num (-1)]) ].

(** Percentages with one key observed twice. *)
Definition repeated_key_table : DataFrame :=
  mkDF ["tetramer"; "pct"]
       [ (Num 0, [Str "GGGG"; Num 5]); (Num 1, [Str "GGGG"; Num 6]) ].


(** Observed percentages for two of the 256 keys. *)
Definition sparse_table : DataFrame :=
  mkDF ["tetramer"; "pct"]
       [ (Num 0, [Str "AAAA"; Num 5]); (Num 1, [Str "GGGG"; Num 6]) ].

(** Two coordinates over two units: a correlation matrix whose index
    lists the units of one coordinate after those of the other. *)
Definition corr_index : MultiIndex :=
  [("shift", "AA"); ("shift", "AC"); ("twist", "AA"); ("twist", "AC")].

Definition corr_matrix : Matrix :=
  mkMatrix corr_index corr_index
    [ [Num 1; Num 2; Num 3; Num 4];
      [Num 2; Num 1; Num 5; Num 6];
      [Num 3; Num 5; Num 1; Num 7];
      [Num 4; Num 6; Num 7; Num 1] ].

(** Two coordinates with one unit each. *)
Definition single_unit_matrix : Matrix :=
  mkMatrix [("shift", "AA"); ("twist", "AA")] [("shift", "AA"); ("twist", "AA")]
    [ [Num 1; Num 2]; [Num 2; Num 1] ].

(** ** Decision procedures used in the proofs *)

Definition distinctb : list string → bool :=
  fix go l :=
    match l with
    | [] => true
    | x :: rest => negb (existsb (String.eqb x) rest) && go rest
    end.

Definition all_ascii : list ascii :=
  ascii_of_nat <$> seq 0 256.

(** The axis orders of one context length and one symbol have the
    expected lengths and no repeated key. *)
Definition axes_check (subunit_len : Z) (xlen : nat) (c : ascii) : bool :=
  match get_axes subunit_len (String c "") with
  | Ok (xaxis, yaxis, tetramer_order) =>
      distinctb yaxis && distinctb xaxis && distinctb tetramer_order
      && (length yaxis =? 16) && (length xaxis =? xlen)
      && (length tetramer_order =? 16 * xlen)
  | Raise _ => false
  end.

(** Every label of the list forms one block. *)
Definition contiguous (l : list string) : bool := distinctb (compress l).

(** ** Further reference definitions *)

(** The words of [n] letters over an alphabet. *)
Fixpoint words (n : nat) (alphabet : list ascii) : list string :=
  match n with
  | 0 => [""]
  | S n' => c ← alphabet; w ← words n' alphabet; [String c w]
  end.

(** Every character of a string is a letter of the alphabet. *)
Fixpoint over (alphabet : list ascii) (w : string) : bool :=
  match w with
  | EmptyString => true
  | String c rest => existsb (Ascii.eqb c) alphabet && over alphabet rest
  end.

(** The key order of one context length and one symbol holds words of
    that length over the four bases only, and all of them. *)
Definition words_check (subunit_len : Z) (c : ascii) : bool :=
  let alphabet := ["A"; "C"; "G"; c]%char in
  let n := Z.to_nat subunit_len in
  match get_axes subunit_len (String c "") with
  | Ok (_, _, tetramer_order) =>
      forallb (λ w, (String.length w =? n) && over alphabet w) tetramer_order
      && forallb (λ w, existsb (String.eqb w) tetramer_order) (words n alphabet)
  | Raise _ => false
  end.

(** * Properties *)

(** ** The axis orders *)

Lemma distinctb_NoDup (l : list string) : distinctb l = true → NoDup l.
Proof.
  induction l as [|x l IH]; simpl; intros H; [constructor|].
  apply andb_true_iff in H as [Hx Hl].
  constructor; [|by apply IH].
  intros Hin. apply negb_true_iff in Hx.
  assert (existsb (String.eqb x) l = true) as Hex; [|congruence].
  apply existsb_exists. exists x. split.
  - by apply list_elem_of_In.
  - apply String.eqb_refl.
Qed.

Lemma all_ascii_complete (c : ascii) : c ∈ all_ascii.
Proof.
  rewrite <- (ascii_nat_embedding c).
  apply list_elem_of_fmap. exists (nat_of_ascii c). split; [done|].
  apply elem_of_seq. pose proof (nat_ascii_bounded c). lia.
Qed.

Lemma axes_check_all :
  forallb (λ c, implb (flexible c) (axes_check 4 16 c && axes_check 3 4 c)) all_ascii = true.
Proof. vm_compute. reflexivity. Qed.

Lemma axes_check_flexible (c : ascii) :
  flexible c = true → axes_check 4 16 c = true ∧ axes_check 3 4 c = true.
Proof.
  intros Hc. pose proof axes_check_all as H.
  rewrite forallb_forall in H.
  specialize (H c (proj1 (list_elem_of_In _ _) (all_ascii_complete c))).
  rewrite Hc in H. simpl in H. by apply andb_true_iff in H.
Qed.

(** The dict built by [sorted_index], read through the list it is built
    from. *)
Lemma sorted_index_go (l : list string) :
  ∀ (d : gmap string nat) (start : nat) (k : string) (i : nat),
    NoDup l →
    (foldl (λ d kv, <[kv.1:=kv.2]> d) d (zip l (seq start (length l)))) !! k = Some i
    ↔ (∃ j, l !! j = Some k ∧ i = start + j) ∨ ((k ∉ l) ∧ d !! k = Some i).
Proof.
  induction l as [|x l IH]; intros d start k i Hnd; simpl.
  - split.
    + intros H. right. split; [apply not_elem_of_nil|done].
    + intros [(j & Hj & _)|[_ H]]; [done|done].
  - apply NoDup_cons in Hnd as [Hx Hnd].
    rewrite IH by done. split.
    + intros [(j & Hj & ->)|[Hk Hd]].
      * left. exists (S j). split; [done|lia].
      * destruct (decide (x = k)) as [->|Hne].
        -- rewrite lookup_insert_eq in Hd. left. exists 0. split; [done|].
           injection Hd as <-. lia.
        -- rewrite lookup_insert_ne in Hd by done. right. split; [|done].
           rewrite elem_of_cons. intros [?|?]; congruence.
    + intros [(j & Hj & ->)|[Hk Hd]].
      * destruct j as [|j]; simpl in Hj.
        -- injection Hj as ->. right. split; [done|].
           rewrite lookup_insert_eq. f_equal. lia.
        -- left. exists j. split; [done|lia].
      * right. apply not_elem_of_cons in Hk as [Hne Hk]. split; [done|].
        by rewrite lookup_insert_ne.
Qed.

Lemma sorted_index_rank (l : list string) (k : string) (i : nat) :
  NoDup l → sorted_index l !! k = Some i ↔ l !! i = Some k.
Proof.
  intros Hnd. unfold sorted_index. rewrite sorted_index_go by done. split.
  - intros [(j & Hj & ->)|[_ H]]; [done|]. by rewrite lookup_empty in H.
  - intros H. left. by exists i.
Qed.

(** C1. For the context length 4 and the flexible symbol T, [get_axes]
    returns the published row order, the reverse of it as the column
    order, and the 16 x 16 = 256 keys of four letters obtained by placing
    every column label between the two symbols of every row label, rows in
    the outer loop and columns in the inner loop. *)
Theorem get_axes_tetramer_T :
  ∃ xaxis yaxis tetramer_order,
    get_axes 4 "T" = Ok (xaxis, yaxis, tetramer_order)
    ∧ yaxis = published_row_order
    ∧ xaxis = reverse published_row_order
    ∧ tetramer_order = cartesian_join yaxis xaxis
    ∧ length tetramer_order = 16 * 16
    ∧ Forall (λ k, String.length k = 4) tetramer_order.
Proof.
  eexists _, _, _. split; [reflexivity|].
  split; [reflexivity|]. split; [reflexivity|].
  split; [by vm_compute|]. split; [reflexivity|].
  apply Forall_forall. intros k Hk.
  apply list_elem_of_In, (proj1 (forallb_forall (λ k, String.length k =? 4) _)) in Hk.
  - by apply Nat.eqb_eq in Hk.
  - by vm_compute.
Qed.

(** C8, counterexample. The context length 2 is refused: the column order
    is never bound for it. *)
Lemma get_axes_length_2_raises :
  get_axes 2 "T" = Raise (NameError "xaxis").
Proof. reflexivity. Qed.

(** C8, amended. [get_axes] returns axis orders exactly for the context
    lengths 3 and 4; for every other context length, 2 included, it raises
    the name error of the unbound column order. *)
Theorem get_axes_supported_lengths (subunit_len : Z) (base : string) :
  is_ok (get_axes subunit_len base) = bool_decide (subunit_len = 3%Z ∨ subunit_len = 4%Z)
  ∧ (is_ok (get_axes subunit_len base) = false
     → get_axes subunit_len base = Raise (NameError "xaxis")).
Proof.
  unfold get_axes, xaxis_of.
  destruct (Z.eqb_spec subunit_len 4) as [->|H4]; [by split|].
  destruct (Z.eqb_spec subunit_len 3) as [->|H3]; [by split|].
  split; [|done]. simpl. symmetry. apply bool_decide_eq_false. lia.
Qed.

(** C3, counterexample. With the flexible symbol C, a letter of the
    alphabet, the row order of length 4 begins with the key CC four times;
    the rank map keeps the last position only, so the entries at the
    positions 0 and 3 share the rank 3. *)
Lemma get_axes_C_repeats_key :
  ∃ xaxis yaxis tetramer_order,
    get_axes 4 "C" = Ok (xaxis, yaxis, tetramer_order)
    ∧ yaxis !! 0 = Some "CC" ∧ yaxis !! 3 = Some "CC"
    ∧ sorted_index yaxis !! "CC" = Some 3
    ∧ ¬ NoDup yaxis.
Proof.
  eexists _, _, _. split; [reflexivity|].
  split; [reflexivity|]. split; [reflexivity|]. split; [by vm_compute|].
  intros Hnd. apply NoDup_cons in Hnd as [Hnd _]. apply Hnd. set_solver.
Qed.

(** C3, amended. For the context lengths 3 and 4 and every flexible symbol
    that is one character other than A, C, G and white space (T and U
    among them), the axis orders returned by [get_axes] have no repeated
    key and the expected lengths: 16 for the row order, 16 (length 4) or 4
    (length 3) for the column order, and their product for the key order.
    The rank map of each of them sends the entry at position [i] to [i]
    and nothing else to [i]. *)
Theorem get_axes_no_repeated_key (subunit_len : Z) (c : ascii) :
  subunit_len = 3%Z ∨ subunit_len = 4%Z →
  flexible c = true →
  ∃ xaxis yaxis tetramer_order,
    get_axes subunit_len (String c "") = Ok (xaxis, yaxis, tetramer_order)
    ∧ length yaxis = 16
    ∧ length xaxis = (if decide (subunit_len = 4%Z) then 16 else 4)
    ∧ length tetramer_order = 16 * length xaxis
    ∧ Forall (λ l : list string,
        NoDup l ∧ ∀ k i, sorted_index l !! k = Some i ↔ l !! i = Some k)
        [xaxis; yaxis; tetramer_order].
Proof.
  intros Hlen Hc. apply axes_check_flexible in Hc as [H4 H3].
  assert (∃ xlen, axes_check subunit_len xlen c = true
                  ∧ xlen = if decide (subunit_len = 4%Z) then 16 else 4)
    as (xlen & Hchk & Hxlen).
  { destruct Hlen as [->| ->]; [by exists 4|by exists 16]. }
  unfold axes_check in Hchk.
  destruct (get_axes subunit_len (String c "")) as [[[xaxis yaxis] t]|]; [|done].
  repeat (apply andb_true_iff in Hchk as [Hchk ?]).
  exists xaxis, yaxis, t.
  repeat match goal with H : (_ =? _) = true |- _ => apply Nat.eqb_eq in H end.
  split; [done|]. split; [done|]. split; [congruence|]. split; [congruence|].
  repeat (apply Forall_cons; split;
          [split; [by apply distinctb_NoDup
                  |intros; by apply sorted_index_rank, distinctb_NoDup]|]).
  apply Forall_nil_2.
Qed.

Lemma get_axes_no_repeated_key_witness :
  ∃ xaxis yaxis tetramer_order,
    get_axes 4 "T" = Ok (xaxis, yaxis, tetramer_order)
    ∧ length yaxis = 16
    ∧ length xaxis = 16
    ∧ length tetramer_order = 16 * length xaxis
    ∧ Forall (λ l : list string,
        NoDup l ∧ ∀ k i, sorted_index l !! k = Some i ↔ l !! i = Some k)
        [xaxis; yaxis; tetramer_order].
Proof.
  apply (get_axes_no_repeated_key 4 "T"); [by right|reflexivity].
Defined.

(** ** The split-triangle mesh *)

Section grid.
Context {A : Type} (f : nat → nat → A).

Lemma inner_loop_from (M s j : nat) :
  (i ← seq s M; [f i j]) = (λ i, f i j) <$> seq s M.
Proof.
  revert s. induction M as [|M IH]; intros s; [done|].
  simpl. by rewrite IH.
Qed.

Lemma inner_loop (M j : nat) :
  (i ← seq 0 M; [f i j]) = (λ i, f i j) <$> seq 0 M.
Proof. apply inner_loop_from. Qed.

Lemma grid_length_from (M N s : nat) :
  length (j ← seq s N; i ← seq 0 M; [f i j]) = M * N.
Proof.
  revert s. induction N as [|N IH]; intros s; simpl; [lia|].
  rewrite length_app, IH, inner_loop, length_fmap, length_seq. lia.
Qed.

Lemma grid_length (M N : nat) :
  length (j ← seq 0 N; i ← seq 0 M; [f i j]) = M * N.
Proof. apply grid_length_from. Qed.

Lemma grid_lookup_from (M N s i j : nat) :
  i < M → j < N →
  (j ← seq s N; i ← seq 0 M; [f i j]) !! (i + j * M) = Some (f i (s + j)).
Proof.
  revert s j. induction N as [|N IH]; intros s j Hi Hj; [lia|].
  simpl. rewrite inner_loop. destruct j as [|j].
  - rewrite lookup_app_l by (rewrite length_fmap, length_seq; lia).
    rewrite list_lookup_fmap, lookup_seq_lt by lia. simpl.
    do 2 f_equal; lia.
  - rewrite lookup_app_r by (rewrite length_fmap, length_seq; lia).
    rewrite length_fmap, length_seq.
    replace (i + S j * M - M) with (i + j * M) by lia.
    rewrite IH by lia. do 2 f_equal. lia.
Qed.

Lemma grid_lookup (M N i j : nat) :
  i < M → j < N →
  (j ← seq 0 N; i ← seq 0 M; [f i j]) !! (i + j * M) = Some (f i j).
Proof. apply grid_lookup_from. Qed.

Lemma grid_elem (M N : nat) (x : A) :
  x ∈ (j ← seq 0 N; i ← seq 0 M; [f i j]) → ∃ i j, i < M ∧ j < N ∧ x = f i j.
Proof.
  intros H. apply list_elem_of_bind in H as (j & H & Hj).
  apply list_elem_of_bind in H as (i & H & Hi).
  apply list_elem_of_singleton in H.
  apply elem_of_seq in Hi, Hj. exists i, j. split; [lia|]. split; [lia|done].
Qed.
End grid.

(** A lattice position computed from a cell lies in the lattice. *)
Lemma flat_bound (M N i j : nat) :
  i ≤ M → j ≤ N → flat M i j < (M + 1) * (N + 1).
Proof. unfold flat. nia. Qed.

(** C2. For all grid extents [M] and [N] both triangle lists have [M * N]
    entries; every lattice position they mention lies below
    [(M+1) * (N+1)], the number of lattice points; the entry of the cell in
    column [i] of row [j] is the triangle (i,j), (i+1,j), (i+1,j+1) in the
    upper list and (i,j), (i+1,j+1), (i,j+1) in the lower list, a lattice
    point (i,j) being named by its flat position [i + j * (M+1)], at which
    the flattened coordinate arrays hold [i] and [j]; and for M = 2 and
    N = 1 the upper triangle of the cell (0,0) is (0, 1, 4). *)
Theorem tessellation (M N : nat) :
  length (upper_triangle M N) = M * N
  ∧ length (lower_triangle M N) = M * N
  ∧ length (xs_ravel M N) = (M + 1) * (N + 1)
  ∧ length (ys_ravel M N) = (M + 1) * (N + 1)
  ∧ Forall (λ t : nat * nat * nat,
      t.1.1 < (M + 1) * (N + 1) ∧ t.1.2 < (M + 1) * (N + 1)
      ∧ t.2 < (M + 1) * (N + 1))
      (upper_triangle M N ++ lower_triangle M N)
  ∧ (∀ i j, i < M → j < N →
      upper_triangle M N !! (i + j * M)
        = Some (flat M i j, flat M (i + 1) j, flat M (i + 1) (j + 1))
      ∧ lower_triangle M N !! (i + j * M)
        = Some (flat M i j, flat M (i + 1) (j + 1), flat M i (j + 1)))
  ∧ (∀ i j, i ≤ M → j ≤ N →
      xs_ravel M N !! flat M i j = Some i ∧ ys_ravel M N !! flat M i j = Some j)
  ∧ upper_triangle 2 1 !! 0 = Some (0, 1, 4).
Proof.
  split; [apply grid_length|]. split; [apply grid_length|].
  split; [apply (grid_length (λ i _, i))|].
  split; [apply (grid_length (λ _ j, j))|].
  split.
  { apply Forall_app; split; apply Forall_forall; intros t Ht;
      apply grid_elem in Ht as (i & j & Hi & Hj & ->); simpl;
      pose proof (flat_bound M N i j); pose proof (flat_bound M N (i + 1) j);
      pose proof (flat_bound M N (i + 1) (j + 1));
      pose proof (flat_bound M N i (j + 1)); unfold flat in *; lia. }
  split.
  { intros i j Hi Hj. split.
    - unfold upper_triangle.
      rewrite (grid_lookup (λ i j, (i + j*(M+1), i+1 + j*(M+1), i+1 + (j+1)*(M+1))))
        by done.
      done.
    - unfold lower_triangle.
      rewrite (grid_lookup (λ i j, (i + j*(M+1), i+1 + (j+1)*(M+1), i + (j+1)*(M+1))))
        by done.
      done. }
  split; [|reflexivity].
  intros i j Hi Hj. unfold flat, xs_ravel, ys_ravel. split.
  - rewrite (grid_lookup (λ i _, i)); [done|lia|lia].
  - rewrite (grid_lookup (λ _ j, j)); [done|lia|lia].
Qed.

(** ** Tables *)

Lemma col_pos_Some (name : string) (cols : list string) (p : nat) :
  col_pos name cols = Some p → cols !! p = Some name.
Proof.
  revert p. induction cols as [|c cols IH]; intros p; simpl; [done|].
  case_decide as Hc.
  - intros [= <-]. by rewrite Hc.
  - destruct (col_pos name cols) as [q|]; simpl; [|done].
    intros [= <-]. by apply IH.
Qed.

Lemma col_pos_None (name : string) (cols : list string) :
  col_pos name cols = None ↔ name ∉ cols.
Proof.
  induction cols as [|c cols IH]; simpl.
  - split; [intros _; apply not_elem_of_nil|done].
  - rewrite not_elem_of_cons. case_decide as Hc.
    + split; [done|]. intros [? _]. congruence.
    + destruct (col_pos name cols); simpl.
      * split; [done|]. intros [_ H]. by apply IH in H.
      * split; [|done]. intros _. split; [congruence|]. by apply IH.
Qed.

Lemma col_pos_app_new (name : string) (cols : list string) :
  col_pos name cols = None → col_pos name (cols ++ [name]) = Some (length cols).
Proof.
  induction cols as [|c cols IH]; simpl.
  - intros _. by rewrite decide_True.
  - case_decide; [done|].
    destruct (col_pos name cols); [done|]. intros _. by rewrite IH.
Qed.

Lemma remove_at_snoc {A} (l : list A) (x : A) :
  remove_at (length l) (l ++ [x]) = l.
Proof.
  unfold remove_at. rewrite take_app_length.
  rewrite drop_ge by (rewrite length_app; simpl; lia). apply app_nil_r.
Qed.

Lemma filter_bool_split {A} (f : A → bool) (l : list A) :
  filter (λ x, f x = false) l ++ filter (λ x, f x = true) l ≡ₚ l.
Proof.
  induction l as [|x l IH]; [done|].
  rewrite !filter_cons. destruct (f x) eqn:E.
  - rewrite decide_False, decide_True by done.
    by rewrite <- Permutation_middle, IH.
  - rewrite decide_True, decide_False by done. simpl. by rewrite IH.
Qed.

#[local] Instance key_le_total : Total Pd.key_le.
Proof.
  intros [a ?] [b ?]. unfold Pd.key_le. simpl.
  destruct a as [x|x|], b as [y|y|]; simpl; auto.
  - destruct (String.leb_total x y) as [->| ->]; auto.
  - destruct (Z.leb_spec x y), (Z.leb_spec y x); simpl; auto. lia.
Qed.

Lemma Sorted_fmap_on {A B} (P : A → Prop) (f : A → B)
    (R1 : relation A) (R2 : relation B) (l : list A) :
  (∀ a b, P a → P b → R1 a b → R2 (f a) (f b)) →
  Forall P l → Sorted R1 l → Sorted R2 (f <$> l).
Proof.
  intros Hf HP Hs. induction Hs as [|x l Hs IH Hhd]; [constructor|].
  apply Forall_cons in HP as [Hx Hl]. csimpl. constructor; [by apply IH|].
  destruct Hhd as [|y l Hxy]; [constructor|]. csimpl. constructor.
  apply Forall_cons in Hl as [Hy _]. by apply Hf.
Qed.

(** Sorting rows by a key [k], as [sort_values] does through the pairs of
    a value and its row. *)
Section sort_by_key.
Context (k : row → cell).

Lemma zip_key (rs : list row) : zip (k <$> rs) rs = (λ r, (k r, r)) <$> rs.
Proof. induction rs as [|r rs IH]; csimpl; [done|]. by rewrite IH. Qed.

Lemma filter_key (b : bool) (rs : list row) :
  (filter (λ it : cell * row, isna it.1 = b) ((λ r, (k r, r)) <$> rs)).*2
  = filter (λ r, isna (k r) = b) rs.
Proof.
  induction rs as [|r rs IH]; [done|].
  rewrite fmap_cons, !filter_cons. cbn [fst].
  destruct (decide (isna (k r) = b)); csimpl; by rewrite IH.
Qed.

(** The rows the sort returns: those with a value, in ascending order of
    the value, then those without one as they were. *)
Lemma take_sorted_spec (rs : list row) :
  ∃ present,
    Pd.take_sorted (k <$> rs) rs
      = present ++ filter (λ r, isna (k r) = true) rs
    ∧ present ≡ₚ filter (λ r, isna (k r) = false) rs
    ∧ Sorted (λ a b, Is_true (Pd.cell_leb (k a) (k b))) present.
Proof.
  unfold Pd.take_sorted. rewrite zip_key, fmap_app, filter_key.
  eexists. split; [reflexivity|]. split.
  - by rewrite merge_sort_Permutation, filter_key.
  - apply (Sorted_fmap_on (λ it, it.1 = k it.2) snd Pd.key_le).
    + intros a b Ha Hb Hab. unfold Pd.key_le in Hab. by rewrite Ha, Hb in Hab.
    + rewrite merge_sort_Permutation.
      apply Forall_forall. intros it Hit.
      apply list_elem_of_filter in Hit as [_ Hit].
      apply list_elem_of_fmap in Hit as (r & -> & _). done.
    + apply (Sorted_merge_sort _).
Qed.

Lemma take_sorted_perm (rs : list row) : Pd.take_sorted (k <$> rs) rs ≡ₚ rs.
Proof.
  destruct (take_sorted_spec rs) as (present & -> & Hp & _).
  rewrite Hp. apply filter_bool_split.
Qed.
End sort_by_key.

(** ** [reorder_labels] *)

Lemma zip_with_fmap_diag {A B C} (f : A → B → C) (g : A → B) (l : list A) :
  zip_with f l (g <$> l) = (λ x, f x (g x)) <$> l.
Proof. induction l as [|x l IH]; csimpl; [done|]. by rewrite IH. Qed.

(** Assigning a column computed row by row: where the column is, and that
    it holds the assigned values. *)
Lemma setitem_fmap (t : DataFrame) (name : string) (g : row → cell) :
  wf t →
  ∃ n, col_pos name (columns (Pd.setitem t name (g <$> rows t))) = Some n
       ∧ cell_at n <$> rows (Pd.setitem t name (g <$> rows t)) = g <$> rows t.
Proof.
  intros [_ Hwf]. unfold Pd.setitem.
  destruct (col_pos name (columns t)) as [q|] eqn:Hq; simpl.
  - exists q. split; [done|]. rewrite zip_with_fmap_diag, <- list_fmap_compose.
    apply Forall_fmap_ext. eapply Forall_impl; [exact Hwf|].
    intros r Hr. unfold cell_at. simpl in *.
    apply col_pos_Some, lookup_lt_Some in Hq.
    rewrite list_lookup_insert_eq by lia. done.
  - exists (length (columns t)). split; [by apply col_pos_app_new|].
    rewrite zip_with_fmap_diag, <- list_fmap_compose.
    apply Forall_fmap_ext. eapply Forall_impl; [exact Hwf|].
    intros r Hr. unfold cell_at. simpl in *.
    rewrite lookup_app_r by lia. rewrite Hr, Nat.sub_diag. done.
Qed.

Lemma setitem_new (t : DataFrame) (name : string) (g : row → cell) :
  col_pos name (columns t) = None →
  Pd.setitem t name (g <$> rows t)
  = mkDF (columns t ++ [name]) ((λ r : row, (r.1, r.2 ++ [g r])) <$> rows t).
Proof. intros H. unfold Pd.setitem. by rewrite H, zip_with_fmap_diag. Qed.

Lemma ranks_sortable (order : list string) (p : nat) (rs : list row) :
  Pd.sortable (rank_of order p <$> rs) = true.
Proof.
  unfold Pd.sortable. apply orb_true_iff. left.
  apply forallb_forall. intros c Hc.
  apply list_elem_of_In, list_elem_of_fmap in Hc as (r & -> & _).
  unfold rank_of, Pd.map_dict.
  destruct (cell_at p r) as [k| |]; [|done|done].
  by destruct (sorted_index order !! k).
Qed.

(** One run of [reorder_labels] on a table that has the key column: the
    reference it returns and the store it leaves. *)
Lemma reorder_labels_run (s : store) (df : ref) (t : DataFrame)
    (name : string) (p : nat) (order : list string) :
  s !! df = Some t → wf t → col_pos name (columns t) = Some p →
  ∃ n,
    let t1 := Pd.setitem t "subunit_rank" (rank_of order p <$> rows t) in
    let t2 := mkDF (columns t1) (Pd.take_sorted (cell_at n <$> rows t1) (rows t1)) in
    let t3 := mkDF (remove_at n (columns t1))
                   ((λ r : row, (r.1, remove_at n r.2)) <$> rows t2) in
    col_pos "subunit_rank" (columns t1) = Some n
    ∧ cell_at n <$> rows t1 = rank_of order p <$> rows t
    ∧ reorder_labels df name order s
      = (Ok (length s + 2), <[df:=t1]> s ++ [t2; t3; Pd.reset_index t3]).
Proof.
  intros Hs Hwf Hp.
  destruct (setitem_fmap t "subunit_rank" (rank_of order p) Hwf) as (n & Hn & Hvals).
  exists n. cbn zeta. split; [done|]. split; [done|].
  set (t1 := Pd.setitem t "subunit_rank" (rank_of order p <$> rows t)) in *.
  assert (df < length s) as Hlt by (by eapply lookup_lt_Some).
  unfold reorder_labels, mbind, M_bind, bind, read, lift, write, alloc, mret, M_ret, ret.
  rewrite Hs. unfold Pd.getitem at 1. rewrite Hp.
  rewrite <- list_fmap_compose.
  change (Pd.map_dict (sorted_index order) ∘ cell_at p) with (rank_of order p).
  fold t1. rewrite list_lookup_insert_eq by done.
  unfold Pd.sort_values, Pd.getitem. rewrite Hn.
  rewrite Hvals at 1. rewrite ranks_sortable.
  rewrite list_lookup_middle by done.
  unfold Pd.drop. cbn [columns]. rewrite Hn.
  rewrite list_lookup_middle by done.
  rewrite <- !app_assoc. cbn [app].
  rewrite !length_app, length_insert. cbn [length].
  do 2 f_equal; lia.
Qed.

Lemma sorted_index_dom_go (l : list string) :
  ∀ (d : gmap string nat) (start : nat) (k : string),
    is_Some ((foldl (λ d kv, <[kv.1:=kv.2]> d) d (zip l (seq start (length l)))) !! k)
    ↔ k ∈ l ∨ is_Some (d !! k).
Proof.
  induction l as [|x l IH]; intros d start k; simpl.
  - split; [by right|]. intros [H|H]; [by apply elem_of_nil in H|done].
  - rewrite IH, elem_of_cons. destruct (decide (x = k)) as [->|Hne].
    + rewrite lookup_insert_eq. split; [auto|]. intros _. right. by eexists.
    + rewrite lookup_insert_ne by done. split.
      * intros [?|?]; auto.
      * intros [[?|?]|?]; auto. congruence.
Qed.

(** A key has a rank exactly when it occurs in the order. *)
Lemma sorted_index_dom (order : list string) (k : string) :
  is_Some (sorted_index order !! k) ↔ k ∈ order.
Proof.
  unfold sorted_index. rewrite sorted_index_dom_go, lookup_empty.
  split; [|auto]. intros [?|[? ?]]; done.
Qed.

Lemma rank_present (order : list string) (p : nat) (r : row) :
  isna (rank_of order p r) = false ↔ key_in_order order p r.
Proof.
  unfold rank_of, key_in_order, Pd.map_dict.
  destruct (cell_at p r) as [k| |].
  - destruct (sorted_index order !! k) as [i|] eqn:E; simpl.
    + split; [|done]. intros _. exists k. split; [done|].
      apply sorted_index_dom. by eexists.
    + split; [done|]. intros (k' & [= <-] & Hin).
      apply sorted_index_dom in Hin as [? ?]. congruence.
  - simpl. split; [done|]. by intros (? & ? & ?).
  - simpl. split; [done|]. by intros (? & ? & ?).
Qed.

(** The rows that carry the rank column, with the column taken off again. *)
Lemma strip_filter (n : nat) (g : row → cell) (b : bool) (rs : list row) :
  Forall (λ r : row, length r.2 = n) rs →
  (λ r : row, (r.1, remove_at n r.2))
    <$> filter (λ r' : row, isna (cell_at n r') = b)
               ((λ r : row, (r.1, r.2 ++ [g r])) <$> rs)
  = filter (λ r, isna (g r) = b) rs.
Proof.
  induction 1 as [|[lab cs] rs Hr Hrs IH]; [done|].
  simpl in Hr. subst n.
  assert (cell_at (length cs) (lab, cs ++ [g (lab, cs)]) = g (lab, cs)) as E.
  { unfold cell_at. simpl. by rewrite list_lookup_middle. }
  rewrite fmap_cons, !filter_cons. cbn [fst snd]. rewrite E.
  destruct (decide (isna (g (lab, cs)) = b)); [|done].
  rewrite fmap_cons. cbn [fst snd]. rewrite remove_at_snoc. f_equal. exact IH.
Qed.

Lemma length_range_index (n : nat) : length (range_index n) = n.
Proof. unfold range_index. by rewrite length_fmap, length_seq. Qed.

(** [reorder_labels] on a table that has the key column and no column
    named as the rank column: the store afterwards, and the rows of the
    returned table. *)
Lemma reorder_labels_fresh (s : store) (df : ref) (t : DataFrame)
    (name : string) (p : nat) (order : list string) :
  s !! df = Some t → wf t → col_pos name (columns t) = Some p →
  "subunit_rank" ∉ columns t →
  ∃ s' t' present,
    reorder_labels df name order s = (Ok (length s + 2), s')
    ∧ s' !! (length s + 2) = Some t'
    ∧ s' !! df = Some (mkDF (columns t ++ ["subunit_rank"])
                        ((λ r : row, (r.1, r.2 ++ [rank_of order p r])) <$> rows t))
    ∧ columns t' = columns t
    ∧ rows t' = zip (range_index (length (rows t)))
                    ((present ++ filter (λ r, isna (rank_of order p r) = true) (rows t)).*2)
    ∧ present ≡ₚ filter (λ r, isna (rank_of order p r) = false) (rows t)
    ∧ Sorted (rank_le order p) present.
Proof.
  intros Hs Hwf Hp Hfresh. apply col_pos_None in Hfresh.
  destruct (reorder_labels_run s df t name p order Hs Hwf Hp) as (n & Hn & _ & Hrun).
  cbn zeta in *. rewrite setitem_new in * by done. cbn [columns rows] in *.
  rewrite col_pos_app_new in Hn by done. injection Hn as <-.
  set (n := length (columns t)) in *.
  set (e := λ r : row, (r.1, r.2 ++ [rank_of order p r])) in *.
  set (strip := λ r : row, (r.1, remove_at n r.2)) in *.
  destruct Hwf as [_ Hwf]. fold n in Hwf.
  assert (df < length s) as Hlt by (by eapply lookup_lt_Some).
  destruct (take_sorted_spec (cell_at n) (e <$> rows t)) as (pres & Htake & Hperm & Hsorted).
  rewrite Htake in Hrun. clear Htake.
  assert (Forall (λ r' : row, ∃ r, length r.2 = n ∧ r' = e r) pres) as Hpres.
  { rewrite Hperm. apply Forall_forall. intros r' Hr'.
    apply list_elem_of_filter in Hr' as [_ Hr'].
    apply list_elem_of_fmap in Hr' as (r & -> & Hr).
    exists r. split; [|done]. by eapply Forall_forall in Hwf. }
  assert (∀ r : row, length r.2 = n → cell_at n (e r) = rank_of order p r ∧ strip (e r) = r)
    as He.
  { intros [lab cs] Hr. simpl in Hr. unfold cell_at, strip, e. simpl.
    rewrite <- Hr. rewrite list_lookup_middle by done.
    by rewrite remove_at_snoc. }
  eexists _, _, (strip <$> pres). split; [exact Hrun|].
  split.
  { rewrite lookup_app_r by (rewrite length_insert; lia).
    rewrite length_insert. by replace (length s + 2 - length s) with 2 by lia. }
  split.
  { rewrite lookup_app_l by (by rewrite length_insert).
    by apply list_lookup_insert_eq. }
  split; [simpl; unfold n; apply remove_at_snoc|].
  assert (strip <$> (pres ++ filter (λ r' : row, isna (cell_at n r') = true) (e <$> rows t))
          = (strip <$> pres) ++ filter (λ r, isna (rank_of order p r) = true) (rows t))
    as Hstrip.
  { rewrite fmap_app. f_equal. by apply strip_filter. }
  assert (strip <$> pres ≡ₚ filter (λ r, isna (rank_of order p r) = false) (rows t))
    as Hperm'.
  { rewrite Hperm. by rewrite (strip_filter n (rank_of order p) false). }
  split.
  { unfold Pd.reset_index, values. cbn [columns rows].
    match goal with
    | |- zip (range_index (length ?L)) _ = _ =>
        replace L with ((strip <$> pres)
                        ++ filter (λ r, isna (rank_of order p r) = true) (rows t))
          by (symmetry; exact Hstrip)
    end.
    f_equal. f_equal.
    rewrite length_app, Hperm', <- length_app.
    by rewrite filter_bool_split. }
  split; [done|].
  apply (Sorted_fmap_on (λ r' : row, ∃ r, length r.2 = n ∧ r' = e r) strip
           (λ a b, Is_true (Pd.cell_leb (cell_at n a) (cell_at n b)))); [|done|done].
  intros a b (ra & Hra & ->) (rb & Hrb & ->) Hab.
  destruct (He ra Hra) as [Ha1 Ha2], (He rb Hrb) as [Hb1 Hb2].
  unfold rank_le. by rewrite Ha2, Hb2, <- Ha1, <- Hb1.
Qed.

Lemma setitem_rows_length (t : DataFrame) (name : string) (g : row → cell) :
  length (rows (Pd.setitem t name (g <$> rows t))) = length (rows t).
Proof.
  unfold Pd.setitem. destruct (col_pos name (columns t)); simpl;
    rewrite length_zip_with, length_fmap; lia.
Qed.

(** C4, counterexample. The key XXXX is in no axis order, and the call
    raises nothing: it returns a table, with the row of that key placed
    last. *)
Lemma reorder_labels_accepts_absent_key :
  ∃ tetramer_order s',
    get_axes 4 "T" = Ok (reverse (yaxis_of "T"), yaxis_of "T", tetramer_order)
    ∧ ("XXXX" ∉ tetramer_order)
    ∧ reorder_labels 0 "tetramer" tetramer_order [absent_key_table] = (Ok 3, s')
    ∧ s' !! 3 = Some (mkDF ["tetramer"; "col1"]
                        [ (Num 0, [Str "TAAT"; Num 7]);
                          (Num 1, [Str "AAAA"; Num 5]);
                          (Num 2, [Str "XXXX"; Num 6]) ]).
Proof.
  eexists _, _. split; [reflexivity|]. split.
  - intros Hin. apply list_elem_of_In in Hin.
    assert (existsb (String.eqb "XXXX")
              (join_axes (reverse (yaxis_of "T")) (yaxis_of "T")) = false) as E
      by (by vm_compute).
    apply not_true_iff_false in E. apply E, existsb_exists.
    exists "XXXX". split; [done|apply String.eqb_refl].
  - split; [by vm_compute|]. reflexivity.
Qed.

(** C4, amended. [reorder_labels] has no strict policy: on every table
    that has the key column the call raises nothing and returns a table
    with as many rows as the input; when no column is already named as the
    rank column, the rows whose key is absent from the order are exactly
    the rows without a rank, and they are all kept, in their original
    order, after the rows whose key is in the order. *)
Theorem reorder_labels_raises_nothing (s : store) (df : ref) (t : DataFrame)
    (name : string) (p : nat) (order : list string) :
  s !! df = Some t → wf t → col_pos name (columns t) = Some p →
  ∃ out s' t',
    reorder_labels df name order s = (Ok out, s')
    ∧ s' !! out = Some t'
    ∧ length (rows t') = length (rows t)
    ∧ ("subunit_rank" ∉ columns t →
       ∃ present,
         values t'
         = (present ++ filter (λ r, isna (rank_of order p r) = true) (rows t)).*2
         ∧ Forall (key_in_order order p) present
         ∧ ∀ r, isna (rank_of order p r) = true ↔ ¬ key_in_order order p r).
Proof.
  intros Hs Hwf Hp.
  destruct (decide ("subunit_rank" ∈ columns t)) as [Hold|Hfresh].
  - destruct (reorder_labels_run s df t name p order Hs Hwf Hp) as (n & Hn & _ & Hrun).
    cbn zeta in Hrun.
    eexists _, _, _. split; [exact Hrun|].
    split.
    { rewrite lookup_app_r by (rewrite length_insert; lia).
      rewrite length_insert. by replace (length s + 2 - length s) with 2 by lia. }
    split; [|done].
    unfold Pd.reset_index, values. cbn [rows].
    rewrite length_zip_with, length_range_index, !length_fmap, Nat.min_id.
    rewrite take_sorted_perm. apply setitem_rows_length.
  - destruct (reorder_labels_fresh s df t name p order Hs Hwf Hp Hfresh)
      as (s' & t' & present & Hrun & Hout & _ & _ & Hrows & Hperm & _).
    assert (length (present ++ filter (λ r, isna (rank_of order p r) = true) (rows t))
            = length (rows t)) as Hlen.
    { rewrite length_app, Hperm, <- length_app. by rewrite filter_bool_split. }
    exists (length s + 2), s', t'. split; [done|]. split; [done|]. split.
    { rewrite Hrows, length_zip_with, length_range_index, length_fmap, Hlen. lia. }
    intros _. exists present. split; [|split].
    + unfold values. rewrite Hrows. apply snd_zip.
      by rewrite length_range_index, length_fmap, Hlen.
    + rewrite Hperm. apply Forall_forall. intros r Hr.
      apply list_elem_of_filter in Hr as [Hr _]. by apply rank_present.
    + intros r. rewrite <- rank_present. by destruct (isna (rank_of order p r)).
Qed.

Lemma reorder_labels_raises_nothing_witness :
  ∃ out s' t',
    reorder_labels 0 "tetramer" ["TAAT"; "AAAA"] [absent_key_table] = (Ok out, s')
    ∧ s' !! out = Some t'
    ∧ length (rows t') = length (rows absent_key_table)
    ∧ ("subunit_rank" ∉ columns absent_key_table →
       ∃ present,
         values t'
         = (present ++ filter (λ r, isna (rank_of ["TAAT"; "AAAA"] 0 r) = true)
                              (rows absent_key_table)).*2
         ∧ Forall (key_in_order ["TAAT"; "AAAA"] 0) present
         ∧ ∀ r, isna (rank_of ["TAAT"; "AAAA"] 0 r) = true
                ↔ ¬ key_in_order ["TAAT"; "AAAA"] 0 r).
Proof.
  apply (reorder_labels_raises_nothing [absent_key_table] 0 absent_key_table
           "tetramer" 0 ["TAAT"; "AAAA"]).
  - reflexivity.
  - split; [apply (bool_decide_unpack _); by vm_compute|].
    repeat constructor.
  - reflexivity.
Defined.

(** C9. The caller's table after a call: [reorder_labels] has added the
    column of ranks to it and [basepair_plot] the column of categories,
    where the claim has the table unchanged. *)
Theorem callers_table_is_changed :
  [absent_key_table] !! 0 = Some absent_key_table
  ∧ (reorder_labels 0 "tetramer" ["TAAT"; "AAAA"] [absent_key_table]).2 !! 0
    = Some (mkDF ["tetramer"; "col1"; "subunit_rank"]
              [ (Num 0, [Str "AAAA"; Num 5; Num 1]);
                (Num 1, [Str "XXXX"; Num 6; NaN]);
                (Num 2, [Str "TAAT"; Num 7; Num 0]) ])
  ∧ [basepair_table] !! 0 = Some basepair_table
  ∧ (basepair_plot 0 [basepair_table]).2 !! 0
    = Some (mkDF ["shift"; "category"]
              [ (Str "ATGC", [Num 5; Str "TG"]);
                (Str "CCGA", [Num 6; Str "CG"]) ]).
Proof. repeat split; by vm_compute. Qed.

(** C10, counterexample. A table that already has a column named as the
    rank column: the returned table has lost that column, so its only row
    is not the row of the input. *)
Lemma reorder_labels_drops_existing_column :
  ∃ s' t',
    reorder_labels 0 "tetramer" ["TAAT"; "AAAA"] [ranked_table] = (Ok 3, s')
    ∧ s' !! 3 = Some t'
    ∧ columns ranked_table = ["tetramer"; "subunit_rank"]
    ∧ values ranked_table = [[Str "AAAA"; Num 7]]
    ∧ columns t' = ["tetramer"]
    ∧ values t' = [[Str "AAAA"]]
    ∧ ¬ (values t' ≡ₚ values ranked_table).
Proof.
  eexists _, _. split; [by vm_compute|]. split; [reflexivity|].
  repeat (split; [reflexivity|]).
  intros H. apply Permutation_singleton_l in H. discriminate H.
Qed.

(** C10, amended. For every table that has the key column and no column
    already named as the rank column, the table returned by
    [reorder_labels] has the columns of the input and a fresh index, its
    rows are a permutation of the rows of the input, and they are the rows
    whose key is in the order, in ascending order of rank, followed by the
    rows whose key is absent from the order, as they were. *)
Theorem reorder_labels_permutes (s : store) (df : ref) (t : DataFrame)
    (name : string) (p : nat) (order : list string) :
  s !! df = Some t → wf t → col_pos name (columns t) = Some p →
  "subunit_rank" ∉ columns t →
  ∃ out s' t' present,
    reorder_labels df name order s = (Ok out, s')
    ∧ s' !! out = Some t'
    ∧ columns t' = columns t
    ∧ index t' = range_index (length (rows t))
    ∧ values t' ≡ₚ values t
    ∧ values t'
      = (present ++ filter (λ r, isna (rank_of order p r) = true) (rows t)).*2
    ∧ present ≡ₚ filter (λ r, isna (rank_of order p r) = false) (rows t)
    ∧ Sorted (rank_le order p) present
    ∧ ∀ r, isna (rank_of order p r) = false ↔ key_in_order order p r.
Proof.
  intros Hs Hwf Hp Hfresh.
  destruct (reorder_labels_fresh s df t name p order Hs Hwf Hp Hfresh)
    as (s' & t' & present & Hrun & Hout & _ & Hcols & Hrows & Hperm & Hsorted).
  assert (length (present ++ filter (λ r, isna (rank_of order p r) = true) (rows t))
          = length (rows t)) as Hlen.
  { rewrite length_app, Hperm, <- length_app. by rewrite filter_bool_split. }
  assert (values t'
          = (present ++ filter (λ r, isna (rank_of order p r) = true) (rows t)).*2)
    as Hvals.
  { unfold values. rewrite Hrows. apply snd_zip.
    by rewrite length_range_index, length_fmap, Hlen. }
  exists (length s + 2), s', t', present.
  split; [done|]. split; [done|]. split; [done|]. split.
  { unfold index. rewrite Hrows. apply fst_zip.
    by rewrite length_range_index, length_fmap, Hlen. }
  split.
  { rewrite Hvals. unfold values. apply fmap_Permutation.
    rewrite Hperm. apply filter_bool_split. }
  split; [done|]. split; [done|]. split; [done|].
  intros r. apply rank_present.
Qed.

Lemma reorder_labels_permutes_witness :
  ∃ out s' t' present,
    reorder_labels 0 "tetramer" ["TAAT"; "AAAA"] [absent_key_table] = (Ok out, s')
    ∧ s' !! out = Some t'
    ∧ columns t' = columns absent_key_table
    ∧ index t' = range_index (length (rows absent_key_table))
    ∧ values t' ≡ₚ values absent_key_table
    ∧ values t'
      = (present ++ filter (λ r, isna (rank_of ["TAAT"; "AAAA"] 0 r) = true)
                           (rows absent_key_table)).*2
    ∧ present ≡ₚ filter (λ r, isna (rank_of ["TAAT"; "AAAA"] 0 r) = false)
                        (rows absent_key_table)
    ∧ Sorted (rank_le ["TAAT"; "AAAA"] 0) present
    ∧ ∀ r, isna (rank_of ["TAAT"; "AAAA"] 0 r) = false
           ↔ key_in_order ["TAAT"; "AAAA"] 0 r.
Proof.
  apply (reorder_labels_permutes [absent_key_table] 0 absent_key_table
           "tetramer" 0 ["TAAT"; "AAAA"]).
  - reflexivity.
  - split; [apply (bool_decide_unpack _); by vm_compute|].
    repeat constructor.
  - reflexivity.
  - apply (bool_decide_unpack _). by vm_compute.
Defined.

(** ** [bconf_heatmap] *)

Lemma join_inner_length (f : string) (xaxis : list string) :
  length (b ← xaxis; [Py.join b (Py.chars f)]) = length xaxis.
Proof.
  induction xaxis as [|b xaxis IH]; [done|].
  rewrite bind_cons, length_app, IH. done.
Qed.

Lemma join_axes_length (xaxis yaxis : list string) :
  length (join_axes xaxis yaxis) = length yaxis * length xaxis.
Proof.
  unfold join_axes. induction yaxis as [|f yaxis IH]; [done|].
  rewrite bind_cons, length_app, IH, join_inner_length. done.
Qed.

Lemma bconf_order_length (base : string) : length (bconf_order base) = 256.
Proof. unfold bconf_order. by rewrite join_axes_length. Qed.

Lemma of_column_getitem (name : string) (vals : list cell) :
  Pd.getitem (Pd.of_column name vals) name = Ok vals.
Proof.
  unfold Pd.getitem, Pd.of_column. cbn [columns rows col_pos].
  rewrite decide_True by done. f_equal.
  generalize (range_index (length vals)), (length_range_index (length vals)).
  induction vals as [|v vals IH]; intros [|l ls] Hl; try done.
  csimpl. f_equal. apply IH. simpl in Hl. lia.
Qed.

(** With distinct keys on the left, at most one row has a given key. *)
Lemma filter_key_unique (p : nat) (k : cell) (rs : list row) :
  NoDup (cell_at p <$> rs) →
  length (filter (λ r : row, cell_at p r = k) rs) ≤ 1.
Proof.
  induction rs as [|r rs IH]; [simpl; lia|].
  rewrite fmap_cons, NoDup_cons, filter_cons. intros [Hr Hnd].
  case_decide as Hk; [|by apply IH].
  assert (filter (λ r : row, cell_at p r = k) rs = []) as ->; [|simpl; lia].
  destruct (filter (λ r : row, cell_at p r = k) rs) as [|r' ms] eqn:E; [done|].
  exfalso. assert (r' ∈ filter (λ r : row, cell_at p r = k) rs) as Hf
    by (rewrite E; apply list_elem_of_here).
  apply list_elem_of_filter in Hf as [Hk' Hr']. apply Hr.
  apply list_elem_of_fmap. exists r'. split; [congruence|done].
Qed.

Lemma merge_block (rs : list row) (p width : nat) (k : cell) :
  NoDup (cell_at p <$> rs) →
  ∃ cells,
    match filter (λ r : row, cell_at p r = k) rs with
    | [] => [Pd.nan_row p width k]
    | matches => matches.*2
    end = [cells]
    ∧ joined_for rs p width k cells.
Proof.
  intros Hnd. pose proof (filter_key_unique p k rs Hnd) as Hlen.
  destruct (filter (λ r : row, cell_at p r = k) rs) as [|r [|r' ms]] eqn:E.
  - eexists. split; [done|]. left. split; [|done].
    intros Hin. apply list_elem_of_fmap in Hin as (r & Hr & Hin).
    assert (r ∈ filter (λ r : row, cell_at p r = k) rs) as Hf
      by (by apply list_elem_of_filter).
    rewrite E in Hf. by apply elem_of_nil in Hf.
  - exists r.2. split; [done|]. right.
    assert (r ∈ filter (λ r : row, cell_at p r = k) rs) as Hf
      by (rewrite E; apply list_elem_of_here).
    apply list_elem_of_filter in Hf as [Hk Hr].
    split; [|done]. apply list_elem_of_fmap. by exists r.
  - simpl in Hlen. lia.
Qed.

Lemma merge_joined (rs : list row) (p width : nat) (keys : list cell) :
  NoDup (cell_at p <$> rs) →
  Forall2 (joined_for rs p width) keys
    (k ← keys;
     match filter (λ r : row, cell_at p r = k) rs with
     | [] => [Pd.nan_row p width k]
     | matches => matches.*2
     end).
Proof.
  intros Hnd. induction keys as [|k keys IH]; [constructor|].
  rewrite bind_cons.
  destruct (merge_block rs p width k Hnd) as (cells & -> & Hc).
  by constructor.
Qed.

(** The key dtypes of line 153: the right key column holds strings, so a
    left key column is accepted when it is empty or holds a string, and
    refused when it holds numbers and missing values only. *)
Lemma keys_mergeable_object (lk : list cell) (ks : list string) :
  lk = [] ∨ (∃ c, c ∈ lk ∧ is_Str c) →
  Pd.keys_mergeable lk (Str <$> ks) = true.
Proof.
  intros [->|(c & Hc & s & ->)]; [done|].
  destruct lk as [|c0 lk]; [done|]. destruct ks as [|k ks]; [done|].
  unfold Pd.keys_mergeable, Pd.numeric_dtype.
  assert (existsb Pd.is_str (c0 :: lk) = true) as ->.
  { apply existsb_exists. exists (Str s). split; [by apply list_elem_of_In|done]. }
  simpl. by rewrite andb_false_r.
Qed.

Lemma keys_mergeable_strings (rs : list row) (p : nat) (ks : list string) :
  Forall (λ r : row, is_Str (cell_at p r)) rs →
  Pd.keys_mergeable (cell_at p <$> rs) (Str <$> ks) = true.
Proof.
  intros Hstr. apply keys_mergeable_object.
  destruct rs as [|r rs]; [by left|]. right.
  apply Forall_cons in Hstr as [Hr _].
  exists (cell_at p r). split; [|done]. rewrite fmap_cons. apply elem_of_cons. by left.
Qed.


(** C5. For every table with a [tetramer] column of distinct string keys
    (the canonical keys among them), the
    table after the right join of [bconf_heatmap] has one row per
    canonical key, 256 in all, in the canonical order; the row of a key the
    input does not have holds the key and the missing value in every other
    column; the row of a key the input has holds the cells of the input row. *)
Theorem bconf_table_expands (df : DataFrame) (base : string) (p : nat) :
  wf df → col_pos "tetramer" (columns df) = Some p →
  Forall (λ r : row, is_Str (cell_at p r)) (rows df) →
  NoDup (cell_at p <$> rows df) →
  ∃ out,
    bconf_table df base = Ok out
    ∧ columns out = columns df
    ∧ length (rows out) = length (bconf_order base)
    ∧ length (bconf_order base) = 256
    ∧ ∀ i k, bconf_order base !! i = Some k →
        ∃ r, rows out !! i = Some r
             ∧ cell_at p r = Str k
             ∧ ((Str k ∉ cell_at p <$> rows df) → ∀ q, q ≠ p → cell_at q r = NaN)
             ∧ (Str k ∈ cell_at p <$> rows df → r.2 ∈ values df).
Proof.
  intros Hwf Hp Hstr Hnd. unfold bconf_table, Pd.merge_right.
  rewrite Hp, of_column_getitem, (keys_mergeable_strings _ _ _ Hstr).
  pose proof (merge_joined (rows df) p (length (columns df))
                (Str <$> bconf_order base) Hnd) as Hj.
  set (joined := _ ≫= _) in *.
  pose proof (Forall2_length _ _ _ Hj) as Hlen. rewrite length_fmap in Hlen.
  eexists. split; [reflexivity|]. cbn [columns rows].
  split; [done|]. split.
  { rewrite length_zip_with, length_range_index. lia. }
  split; [apply bconf_order_length|].
  intros i k Hk.
  assert ((Str <$> bconf_order base) !! i = Some (Str k)) as Hk'
    by (by rewrite list_lookup_fmap, Hk).
  destruct (Forall2_lookup_l _ _ _ _ _ Hj Hk') as (cells & Hcells & Hfor).
  assert (i < length joined) as Hi by (by eapply lookup_lt_Some).
  exists (Num (Z.of_nat i), cells). split.
  { apply lookup_zip_with_Some. exists (Num (Z.of_nat i)), cells.
    split; [done|]. split; [|done].
    unfold range_index. by rewrite list_lookup_fmap, lookup_seq_lt. }
  apply col_pos_Some, lookup_lt_Some in Hp.
  assert (default NaN (Pd.nan_row p (length (columns df)) (Str k) !! p) = Str k) as Hnan.
  { unfold Pd.nan_row.
    by rewrite list_lookup_insert_eq by (by rewrite length_replicate). }
  unfold cell_at. cbn [snd]. destruct Hfor as [[Habs ->]|[Hin Hkey]].
  - split; [done|]. split; [|done].
    intros _ q Hq. unfold Pd.nan_row.
    rewrite list_lookup_insert_ne by done.
    destruct (replicate (length (columns df)) NaN !! q) as [c|] eqn:E; [|done].
    by apply lookup_replicate in E as [-> _].
  - split; [done|]. split; [|done].
    intros Habs. contradict Habs. apply list_elem_of_fmap in Hin as (r & -> & Hr).
    apply list_elem_of_fmap. by exists r.
Qed.

Lemma bconf_table_expands_witness :
  ∃ out,
    bconf_table sparse_table "T" = Ok out
    ∧ columns out = columns sparse_table
    ∧ length (rows out) = length (bconf_order "T")
    ∧ length (bconf_order "T") = 256
    ∧ ∀ i k, bconf_order "T" !! i = Some k →
        ∃ r, rows out !! i = Some r
             ∧ cell_at 0 r = Str k
             ∧ ((Str k ∉ cell_at 0 <$> rows sparse_table)
                → ∀ q, q ≠ 0 → cell_at q r = NaN)
             ∧ (Str k ∈ cell_at 0 <$> rows sparse_table → r.2 ∈ values sparse_table).
Proof.
  apply (bconf_table_expands sparse_table "T" 0).
  - split; [apply (bool_decide_unpack _); by vm_compute|].
    repeat constructor.
  - reflexivity.
  - repeat constructor; by eexists.
  - apply (bool_decide_unpack _). by vm_compute.
Defined.

(** ** [correlation_plot] *)

(** C6. Two coordinates with two units each, entered coordinate by
    coordinate.  Whichever listing of the coordinates line 196 produces,
    the reordered matrix lists the entries unit by unit on both axes:
    under each unit stand both coordinates, so no coordinate forms a
    block, where the claim has one contiguous block per coordinate. *)
Theorem reorder_dataset_interleaves :
  contiguous (get_level_values0 corr_index) = true
  ∧ Forall (λ coordinates,
      set_listing (get_level_values0 corr_index) coordinates
      ∧ ∃ data,
          reorder_dataset coordinates corr_matrix = Ok data
          ∧ m_index data
            = [("shift", "AA"); ("twist", "AA"); ("shift", "AC"); ("twist", "AC")]
          ∧ m_columns data = m_index data
          ∧ contiguous (get_level_values0 (m_index data)) = false)
      [["shift"; "twist"]; ["twist"; "shift"]].
Proof.
  split; [reflexivity|].
  repeat (apply Forall_cons; split); [| |apply Forall_nil_2].
  - split.
    + split; [apply (bool_decide_unpack _); by vm_compute|].
      change (get_level_values0 corr_index) with ["shift"; "shift"; "twist"; "twist"].
      intros x. rewrite !elem_of_cons, !elem_of_nil. tauto.
    + eexists. split; [by vm_compute|]. by repeat split.
  - split.
    + split; [apply (bool_decide_unpack _); by vm_compute|].
      change (get_level_values0 corr_index) with ["shift"; "shift"; "twist"; "twist"].
      intros x. rewrite !elem_of_cons, !elem_of_nil. tauto.
    + eexists. split; [by vm_compute|]. by repeat split.
Qed.

(** C7. Four coordinates with three units each: the combined matrix has
    12 rows in blocks of 3 with the middle rows 1, 4, 7 and 10, and the
    code computes the five positions 1, 3, 5, 7 and 9.  One coordinate
    with two units gets no position at all, and blocks of one unit make
    the step zero, which [arange] refuses. *)
Theorem tick_locs_odd_block :
  tick_locs 12 4 = Ok [1; 3; 5; 7; 9]%Z
  ∧ block_centers 3 4 = [1; 4; 7; 10]%Z
  ∧ tick_locs 2 1 = Ok []
  ∧ block_centers 2 1 = [1%Z]
  ∧ tick_locs 4 4 = Raise ZeroDivisionError.
Proof. repeat split; reflexivity. Qed.

(** X1. For blocks of an even size of at least four rows the tick
    positions are the block centres. *)
Theorem tick_locs_even_block (m K : Z) :
  (2 ≤ m)%Z → (1 ≤ K)%Z →
  tick_locs (K * (2 * m)) K = Ok (block_centers (2 * m) K).
Proof.
  intros Hm HK. unfold tick_locs, arange, block_centers.
  destruct (Z.eqb_spec (2 * K) 0) as [?|_]; [lia|].
  replace (K * (2 * m) / (2 * K))%Z with m by (apply Z.div_unique_exact; lia).
  destruct (Z.eqb_spec (2 * m) 0) as [?|_]; [lia|].
  replace ((K * (2 * m) - 1 - m + 2 * m - 1) / (2 * m))%Z with K.
  2:{ apply (Z.div_unique_pos _ _ K (m - 2)); lia. }
  f_equal. apply list_fmap_ext. intros _ i _.
  replace (2 * m / 2)%Z with m by (apply Z.div_unique_exact; lia).
  lia.
Qed.

Lemma tick_locs_even_block_witness :
  tick_locs (4 * (2 * 128)) 4 = Ok (block_centers (2 * 128) 4).
Proof. apply (tick_locs_even_block 128 4); lia. Defined.

(** The panels of the loop at lines 200-230: every unordered pair of
    coordinates once, a coordinate with itself included. *)
Lemma combinations_elem {A} (l : list A) (x y : A) :
  (x, y) ∈ combinations_with_replacement l
  ↔ ∃ i j, i ≤ j ∧ l !! i = Some x ∧ l !! j = Some y.
Proof.
  induction l as [|a l IH]; simpl.
  - split; [by intros ?%elem_of_nil|]. by intros (i & j & _ & ? & _).
  - rewrite elem_of_cons, elem_of_app, list_elem_of_fmap, IH. split.
    + intros [[= -> ->]|[(z & [= -> ->] & Hz)|(i & j & Hij & Hi & Hj)]].
      * by exists 0, 0.
      * apply list_elem_of_lookup in Hz as [j Hj].
        exists 0, (S j). split; [lia|done].
      * exists (S i), (S j). split; [lia|done].
    + intros ([|i] & [|j] & Hij & Hi & Hj); simpl in *.
      * left. congruence.
      * right. left. exists y. split; [congruence|].
        apply list_elem_of_lookup. by exists j.
      * lia.
      * right. right. exists i, j. split; [lia|done].
Qed.

(** X2. [K] coordinates give [K * (K + 1) / 2] panels, one for every pair
    of positions in ascending order. *)
Theorem combinations_count {A} (l : list A) :
  2 * length (combinations_with_replacement l) = length l * (length l + 1)
  ∧ ∀ x y, (x, y) ∈ combinations_with_replacement l
           ↔ ∃ i j, i ≤ j ∧ l !! i = Some x ∧ l !! j = Some y.
Proof.
  split; [|apply combinations_elem].
  induction l as [|a l IH]; simpl; [done|].
  rewrite length_app, length_fmap. lia.
Qed.

(** The order that [sort_index(level=1)] leaves, on every input. *)
#[local] Instance entry_le_total : Total entry_le.
Proof.
  intros [i [a0 a1]] [j [b0 b1]]. unfold entry_le, entry_leb. simpl.
  rewrite (String.compare_antisym b1 a1), (String.compare_antisym b0 a0).
  destruct (String.compare a1 b1); simpl; auto.
  destruct (String.compare a0 b0); simpl; auto.
  destruct (Nat.leb_spec i j), (Nat.leb_spec j i); simpl; auto. lia.
Qed.

Lemma zip_positions {A} (l : list A) :
  Forall (λ pe : nat * A, l !! pe.1 = Some pe.2) (zip (seq 0 (length l)) l).
Proof.
  apply Forall_forall. intros [i x] Hin.
  apply list_elem_of_lookup in Hin as [n Hn].
  apply lookup_zip_with_Some in Hn as (i' & x' & [= <- <-] & Hi & Hx).
  apply lookup_seq in Hi as [-> _]. done.
Qed.

Lemma take_pos_positions {A} (l : list A) (ps : list (nat * A)) :
  Forall (λ pe : nat * A, l !! pe.1 = Some pe.2) ps →
  take_pos (ps.*1) l = ps.*2.
Proof.
  unfold take_pos. induction 1 as [|[i x] ps Hx _ IH]; [done|].
  csimpl in *. rewrite Hx. csimpl. by rewrite IH.
Qed.

Lemma sort_level1_sorted (ix : list (string * string)) :
  Sorted unit_first (take_pos (sort_level1_positions ix) ix).
Proof.
  unfold sort_level1_positions.
  rewrite take_pos_positions
    by (rewrite merge_sort_Permutation; apply zip_positions).
  apply (Sorted_fmap _ entry_le unit_first); [|apply (Sorted_merge_sort _)].
  intros [i [a0 a1]] [j [b0 b1]]. unfold entry_le, entry_leb, unit_first. simpl.
  destruct (String.compare a1 b1); [|done|done].
  unfold String.leb. by destruct (String.compare a0 b0).
Qed.

(** X5. Whatever the matrix and the listing of the coordinates, both axes of
    the reordered matrix are in ascending order of the unit, and of the
    coordinate among the entries of one unit. *)
Theorem reorder_dataset_unit_first (coordinates : list string) (data data' : Matrix) :
  reorder_dataset coordinates data = Ok data' →
  Sorted unit_first (m_index data') ∧ Sorted unit_first (m_columns data').
Proof.
  unfold reorder_dataset.
  destruct (loc_positions (m_index data) coordinates) as [ps|]; [|done].
  destruct (loc_positions _ coordinates) as [qs|]; [|done].
  intros [= <-]. cbn [m_index m_columns take_rows take_cols].
  split; apply sort_level1_sorted.
Qed.

Lemma reorder_dataset_unit_first_witness :
  ∃ data',
    reorder_dataset ["twist"; "shift"] corr_matrix = Ok data'
    ∧ Sorted unit_first (m_index data') ∧ Sorted unit_first (m_columns data').
Proof.
  destruct (reorder_dataset ["twist"; "shift"] corr_matrix) as [data'|e] eqn:E.
  - exists data'. split; [done|].
    exact (reorder_dataset_unit_first ["twist"; "shift"] corr_matrix data' E).
  - exfalso. vm_compute in E. discriminate E.
Defined.

(** ** The key order and the mesh *)

Lemma join_inner_fmap (f : string) (xaxis : list string) :
  (b ← xaxis; [Py.join b (Py.chars f)]) = (λ b, Py.join b (Py.chars f)) <$> xaxis.
Proof. induction xaxis as [|b xaxis IH]; [done|]. by rewrite bind_cons, IH. Qed.

Lemma join_axes_lookup (xaxis yaxis : list string) (i j : nat) (f b : string) :
  yaxis !! i = Some f → xaxis !! j = Some b →
  join_axes xaxis yaxis !! (j + i * length xaxis) = Some (Py.join b (Py.chars f)).
Proof.
  intros Hf Hb. pose proof (lookup_lt_Some _ _ _ Hb) as Hj.
  unfold join_axes. revert i Hf.
  induction yaxis as [|f0 yaxis IH]; intros i Hf; [done|].
  rewrite bind_cons, join_inner_fmap. destruct i as [|i]; simpl in Hf.
  - injection Hf as ->.
    rewrite lookup_app_l by (rewrite length_fmap; lia).
    by rewrite list_lookup_fmap, Nat.add_0_r, Hb.
  - rewrite lookup_app_r by (rewrite length_fmap; lia).
    rewrite length_fmap.
    replace (j + S i * length xaxis - length xaxis) with (j + i * length xaxis) by lia.
    by apply IH.
Qed.

Lemma length_append (s1 s2 : string) :
  String.length (s1 +:+ s2) = String.length s1 + String.length s2.
Proof. induction s1 as [|c s1 IH]; simpl; [done|]. by rewrite IH. Qed.

Lemma join_two_symbols (f b : string) :
  String.length f = 2 →
  Py.join b (Py.chars f) = insert_between f b
  ∧ String.length (insert_between f b) = 2 + String.length b.
Proof.
  destruct f as [|c1 [|c2 [|c3 f]]]; try done. intros _.
  unfold insert_between. simpl. split; [done|].
  rewrite !length_append. simpl. lia.
Qed.

(** X6. The key at position [j + i * |xaxis|] of the key order is the
    column label [j] placed between the two symbols of the row label [i],
    a key of two letters more than the column label; both triangle lists
    of the grid of [|xaxis|] columns and [|yaxis|] rows hold at that same
    position the triangle of the cell in column [j] of row [i]. *)
Theorem key_order_follows_mesh (xaxis yaxis : list string) (i j : nat)
    (f b : string) :
  yaxis !! i = Some f → xaxis !! j = Some b → String.length f = 2 →
  join_axes xaxis yaxis !! (j + i * length xaxis) = Some (insert_between f b)
  ∧ String.length (insert_between f b) = 2 + String.length b
  ∧ upper_triangle (length xaxis) (length yaxis) !! (j + i * length xaxis)
    = Some (flat (length xaxis) j i, flat (length xaxis) (j + 1) i,
            flat (length xaxis) (j + 1) (i + 1))
  ∧ lower_triangle (length xaxis) (length yaxis) !! (j + i * length xaxis)
    = Some (flat (length xaxis) j i, flat (length xaxis) (j + 1) (i + 1),
            flat (length xaxis) j (i + 1)).
Proof.
  intros Hf Hb Hlen.
  pose proof (lookup_lt_Some _ _ _ Hf) as Hi.
  pose proof (lookup_lt_Some _ _ _ Hb) as Hj.
  destruct (join_two_symbols f b Hlen) as [Hjoin Hkey].
  split; [by rewrite (join_axes_lookup _ _ _ _ f b), Hjoin|]. split; [done|].
  set (M := length xaxis) in *. split.
  - unfold upper_triangle.
    by rewrite (grid_lookup (λ i j, (i + j*(M+1), i+1 + j*(M+1), i+1 + (j+1)*(M+1)))).
  - unfold lower_triangle.
    by rewrite (grid_lookup (λ i j, (i + j*(M+1), i+1 + (j+1)*(M+1), i + (j+1)*(M+1)))).
Qed.

Lemma key_order_follows_mesh_witness :
  join_axes (reverse (yaxis_of "T")) (yaxis_of "T") !! (2 + 1 * 16)
    = Some (insert_between "TC" "GA")
  ∧ String.length (insert_between "TC" "GA") = 2 + String.length "GA"
  ∧ upper_triangle 16 16 !! (2 + 1 * 16)
    = Some (flat 16 2 1, flat 16 (2 + 1) 1, flat 16 (2 + 1) (1 + 1))
  ∧ lower_triangle 16 16 !! (2 + 1 * 16)
    = Some (flat 16 2 1, flat 16 (2 + 1) (1 + 1), flat 16 2 (1 + 1)).
Proof.
  exact (key_order_follows_mesh (reverse (yaxis_of "T")) (yaxis_of "T") 1 2
           "TC" "GA" eq_refl eq_refl eq_refl).
Defined.

(** ** The key order as an enumeration *)

Lemma words_complete (alphabet : list ascii) (w : string) :
  over alphabet w = true → w ∈ words (String.length w) alphabet.
Proof.
  induction w as [|c w IH]; simpl; [intros _; apply list_elem_of_here|].
  intros [Hc Hw]%andb_true_iff.
  apply list_elem_of_bind. exists c. split.
  - apply list_elem_of_bind. exists w. split; [apply list_elem_of_here|by apply IH].
  - apply existsb_exists in Hc as (c' & Hin & Heq).
    apply Ascii.eqb_eq in Heq as ->. by apply list_elem_of_In.
Qed.

Lemma words_check_all :
  forallb (λ c, implb (flexible c) (words_check 4 c && words_check 3 c)) all_ascii = true.
Proof. vm_compute. reflexivity. Qed.

(** X7. For the context lengths 3 and 4 and every flexible symbol, the
    keys of the key order are exactly the words of that length over the
    four bases A, C, G and the flexible symbol. *)
Theorem get_axes_enumerates_words (subunit_len : Z) (c : ascii) :
  subunit_len = 3%Z ∨ subunit_len = 4%Z →
  flexible c = true →
  ∃ xaxis yaxis tetramer_order,
    get_axes subunit_len (String c "") = Ok (xaxis, yaxis, tetramer_order)
    ∧ ∀ w, w ∈ tetramer_order
           ↔ String.length w = Z.to_nat subunit_len
             ∧ over ["A"; "C"; "G"; c]%char w = true.
Proof.
  intros Hlen Hc. pose proof words_check_all as H.
  rewrite forallb_forall in H.
  specialize (H c (proj1 (list_elem_of_In _ _) (all_ascii_complete c))).
  rewrite Hc in H. simpl in H. apply andb_true_iff in H as [H4 H3].
  assert (words_check subunit_len c = true) as Hchk by (by destruct Hlen as [-> | ->]).
  clear H3 H4. unfold words_check in Hchk.
  destruct (get_axes subunit_len (String c "")) as [[[xaxis yaxis] t]|]; [|done].
  apply andb_true_iff in Hchk as [Hsound Hcomplete].
  rewrite forallb_forall in Hsound, Hcomplete.
  exists xaxis, yaxis, t. split; [done|]. intros w. split.
  - intros Hw%list_elem_of_In%Hsound.
    apply andb_true_iff in Hw as [Hn Ho]. by apply Nat.eqb_eq in Hn.
  - intros [Hn Ho]. apply words_complete in Ho. rewrite Hn in Ho.
    apply list_elem_of_In, Hcomplete, existsb_exists in Ho as (w' & Hin & Heq).
    apply String.eqb_eq in Heq as ->. by apply list_elem_of_In.
Qed.

Lemma get_axes_enumerates_words_witness :
  ∃ xaxis yaxis tetramer_order,
    get_axes 3 "U" = Ok (xaxis, yaxis, tetramer_order)
    ∧ ∀ w, w ∈ tetramer_order
           ↔ String.length w = Z.to_nat 3
             ∧ over ["A"; "C"; "G"; "U"]%char w = true.
Proof.
  apply (get_axes_enumerates_words 3 "U"); [by left|reflexivity].
Defined.

(** ** [reorder_labels] on a complete table *)

(** The order of keys by rank. *)
Lemma map_dict_not_Str (d : gmap string nat) (c : cell) :
  (∃ i, Pd.map_dict d c = Num (Z.of_nat i)) ∨ Pd.map_dict d c = NaN.
Proof.
  destruct c as [k| |]; simpl; [|by right|by right].
  destruct (d !! k) as [i|]; [left; by exists i|by right].
Qed.

#[local] Instance rank_order_transitive (d : gmap string nat) :
  Transitive (λ a b : cell, Is_true (Pd.cell_leb (Pd.map_dict d a) (Pd.map_dict d b))).
Proof.
  intros a b c.
  destruct (map_dict_not_Str d a) as [[i ->]| ->],
           (map_dict_not_Str d b) as [[j ->]| ->],
           (map_dict_not_Str d c) as [[k ->]| ->]; simpl; try done.
  rewrite !Is_true_true, !Z.leb_le. lia.
Qed.

Lemma rank_of_entry (order : list string) (i : nat) (k : string) :
  NoDup order → order !! i = Some k →
  Pd.map_dict (sorted_index order) (Str k) = Num (Z.of_nat i).
Proof.
  intros Hnd Hk. simpl.
  by rewrite (proj2 (sorted_index_rank order k i Hnd) Hk).
Qed.

Lemma order_sorted_by_rank (order : list string) :
  NoDup order →
  Sorted (λ a b : cell, Is_true (Pd.cell_leb (Pd.map_dict (sorted_index order) a)
                                             (Pd.map_dict (sorted_index order) b)))
         (Str <$> order).
Proof.
  intros Hnd.
  assert (∀ l1 l2, order = l1 ++ l2 →
            Sorted (λ a b : cell,
                      Is_true (Pd.cell_leb (Pd.map_dict (sorted_index order) a)
                                           (Pd.map_dict (sorted_index order) b)))
                   (Str <$> l2)) as H; [|by apply (H [])].
  intros l1 l2. revert l1. induction l2 as [|k l2 IH]; intros l1 Heq; [constructor|].
  csimpl. constructor.
  - apply (IH (l1 ++ [k])). by rewrite <- app_assoc.
  - destruct l2 as [|k' l2]; [constructor|]. csimpl. constructor.
    rewrite (rank_of_entry order (length l1) k), (rank_of_entry order (S (length l1)) k');
      try done.
    + simpl. apply Is_true_true, Z.leb_le. lia.
    + rewrite Heq. rewrite lookup_app_r by lia.
      by replace (S (length l1) - length l1) with 1 by lia.
    + rewrite Heq. by rewrite list_lookup_middle.
Qed.

(** A list of keys that holds every key of the order once and is in
    ascending order of rank is the order itself. *)
Lemma keys_in_rank_order (order : list string) (ks : list cell) :
  NoDup order → ks ≡ₚ Str <$> order →
  Sorted (λ a b : cell, Is_true (Pd.cell_leb (Pd.map_dict (sorted_index order) a)
                                             (Pd.map_dict (sorted_index order) b))) ks →
  ks = Str <$> order.
Proof.
  intros Hnd Hperm Hsorted.
  eapply Sorted_unique_strong;
    [apply rank_order_transitive| |exact Hsorted|by apply order_sorted_by_rank|done].
  assert (∀ x, x ∈ Str <$> order → ∃ i k, x = Str k ∧ order !! i = Some k) as Hin.
  { intros x (k & -> & Hk)%list_elem_of_fmap.
    apply list_elem_of_lookup in Hk as [i Hi]. by exists i, k. }
  intros x1 x2 Hx1 Hx2. rewrite Hperm in Hx1.
  destruct (Hin x1 Hx1) as (i1 & k1 & -> & H1), (Hin x2 Hx2) as (i2 & k2 & -> & H2).
  rewrite (rank_of_entry order i1 k1), (rank_of_entry order i2 k2) by done.
  simpl. rewrite !Is_true_true, !Z.leb_le. intros ??.
  assert (i1 = i2) as -> by lia. congruence.
Qed.

(** Two arrangements of the same rows with the same sequence of distinct
    keys are the same arrangement. *)
Lemma same_keys_same_rows {A B} (f : A → B) (l1 l2 : list A) :
  l1 ≡ₚ l2 → f <$> l1 = f <$> l2 → NoDup (f <$> l1) → l1 = l2.
Proof.
  revert l2. induction l1 as [|x l1 IH]; intros [|y l2] Hperm Hkeys Hnd;
    csimpl in *; try done.
  injection Hkeys as Hxy Hkeys. apply NoDup_cons in Hnd as [Hx Hnd].
  assert (x = y) as ->.
  { assert (x ∈ y :: l2) as Hin by (rewrite <- Hperm; apply list_elem_of_here).
    apply elem_of_cons in Hin as [?|Hin]; [done|].
    exfalso. apply Hx. rewrite Hkeys. apply list_elem_of_fmap. by exists x. }
  f_equal. apply IH; [by eapply Permutation_cons_inv|done|done].
Qed.

Lemma cell_at_zip (p : nat) (labels : list cell) (rs : list row) :
  length labels = length rs →
  cell_at p <$> zip labels (rs.*2) = cell_at p <$> rs.
Proof.
  revert labels. induction rs as [|r rs IH]; intros [|lab labels] Hlen; try done.
  csimpl. f_equal. apply IH. simpl in Hlen. lia.
Qed.

(** X8. A table that holds every key of an order without repetition once
    is returned in the order of the keys: the key column of the result is
    the order itself, and the rows are those of the input.  When the
    table is in that order already, the returned rows are the input rows
    in the same sequence. *)
Theorem reorder_labels_canonical (s : store) (df : ref) (t : DataFrame)
    (name : string) (p : nat) (order : list string) :
  s !! df = Some t → wf t → col_pos name (columns t) = Some p →
  "subunit_rank" ∉ columns t →
  NoDup order → cell_at p <$> rows t ≡ₚ Str <$> order →
  ∃ out s' t',
    reorder_labels df name order s = (Ok out, s')
    ∧ s' !! out = Some t'
    ∧ Pd.getitem t' name = Ok (Str <$> order)
    ∧ values t' ≡ₚ values t
    ∧ (cell_at p <$> rows t = Str <$> order → values t' = values t).
Proof.
  intros Hs Hwf Hp Hfresh Hnd Hkeys.
  destruct (reorder_labels_fresh s df t name p order Hs Hwf Hp Hfresh)
    as (s' & t' & present & Hrun & Hout & _ & Hcols & Hrows & Hperm & Hsorted).
  assert (Forall (λ r, isna (rank_of order p r) = false) (rows t)) as Hall.
  { apply Forall_forall. intros r Hr. apply rank_present.
    assert (cell_at p r ∈ Str <$> order) as Hin.
    { rewrite <- Hkeys. apply list_elem_of_fmap. by exists r. }
    apply list_elem_of_fmap in Hin as (k & Hk & Hin). by exists k. }
  assert (filter (λ r, isna (rank_of order p r) = true) (rows t) = []) as Hnone.
  { clear -Hall. induction Hall as [|r rs Hr _ IH]; [done|].
    rewrite filter_cons, decide_False by congruence. done. }
  assert (filter (λ r, isna (rank_of order p r) = false) (rows t) = rows t) as Hsome.
  { clear -Hall. induction Hall as [|r rs Hr _ IH]; [done|].
    rewrite filter_cons, decide_True by done. by rewrite IH. }
  rewrite Hnone, app_nil_r in Hrows. rewrite Hsome in Hperm.
  assert (length (range_index (length (rows t))) = length present) as Hlen
    by (by rewrite length_range_index, Hperm).
  assert (values t' = present.*2) as Hvals.
  { unfold values. rewrite Hrows. apply snd_zip. rewrite length_fmap. lia. }
  assert (cell_at p <$> present = Str <$> order) as Hpres.
  { apply keys_in_rank_order; [done|by rewrite Hperm|].
    apply (Sorted_fmap _ (rank_le order p)); [|done]. by intros a b. }
  assert (cell_at p <$> rows t' = Str <$> order) as Hcol
    by (by rewrite Hrows, cell_at_zip).
  exists (length s + 2), s', t'. split; [done|]. split; [done|]. split.
  { unfold Pd.getitem. by rewrite Hcols, Hp, Hcol. }
  split; [by rewrite Hvals, Hperm|].
  intros Hordered. rewrite Hvals. unfold values.
  apply (same_keys_same_rows (λ cs, default NaN (cs !! p))).
  - by rewrite Hperm.
  - rewrite <- !list_fmap_compose.
    change ((λ cs, default NaN (cs !! p)) ∘ snd) with (cell_at p).
    by rewrite Hordered.
  - rewrite <- list_fmap_compose.
    change ((λ cs, default NaN (cs !! p)) ∘ snd) with (cell_at p).
    rewrite Hpres. apply NoDup_fmap_2_strong; [|done]. by intros ?? _ _ [= ->].
Qed.

Lemma reorder_labels_canonical_witness :
  ∃ out s' t',
    reorder_labels 0 "tetramer" ["TAAT"; "XXXX"; "AAAA"] [absent_key_table] = (Ok out, s')
    ∧ s' !! out = Some t'
    ∧ Pd.getitem t' "tetramer" = Ok (Str <$> ["TAAT"; "XXXX"; "AAAA"])
    ∧ values t' ≡ₚ values absent_key_table
    ∧ (cell_at 0 <$> rows absent_key_table = Str <$> ["TAAT"; "XXXX"; "AAAA"]
       → values t' = values absent_key_table).
Proof.
  apply (reorder_labels_canonical [absent_key_table] 0 absent_key_table
           "tetramer" 0 ["TAAT"; "XXXX"; "AAAA"]).
  - reflexivity.
  - split; [apply (bool_decide_unpack _); by vm_compute|]. repeat constructor.
  - reflexivity.
  - apply (bool_decide_unpack _). by vm_compute.
  - apply (bool_decide_unpack _). by vm_compute.
  - apply (bool_decide_unpack _). by vm_compute.
Defined.

(** ** [arlequin_plot] *)

Lemma reorder_labels_missing_column (s : store) (df : ref) (t : DataFrame)
    (name : string) (order : list string) :
  s !! df = Some t → col_pos name (columns t) = None →
  reorder_labels df name order s = (Raise (KeyError name), s).
Proof.
  intros Hs Hp.
  unfold reorder_labels, mbind, M_bind, bind, read, lift.
  rewrite Hs. unfold Pd.getitem. by rewrite Hp.
Qed.

(** The table that [reorder_labels] returns has as many rows as the
    caller's. *)
Lemma reorder_labels_result (s : store) (df : ref) (t : DataFrame)
    (name : string) (p : nat) (order : list string) :
  s !! df = Some t → wf t → col_pos name (columns t) = Some p →
  ∃ s' t',
    reorder_labels df name order s = (Ok (length s + 2), s')
    ∧ s' !! (length s + 2) = Some t'
    ∧ length (rows t') = length (rows t).
Proof.
  intros Hs Hwf Hp.
  destruct (reorder_labels_run s df t name p order Hs Hwf Hp) as (n & Hn & _ & Hrun).
  cbn zeta in Hrun. eexists _, _. split; [exact Hrun|]. split.
  { rewrite lookup_app_r by (rewrite length_insert; lia).
    rewrite length_insert. by replace (length s + 2 - length s) with 2 by lia. }
  unfold Pd.reset_index, values. cbn [rows].
  rewrite length_zip_with, length_range_index, !length_fmap, Nat.min_id.
  rewrite take_sorted_perm. apply setitem_rows_length.
Qed.

Lemma getitem_length (t : DataFrame) (name : string) (vals : list cell) :
  Pd.getitem t name = Ok vals → length vals = length (rows t).
Proof.
  unfold Pd.getitem. destruct (col_pos name (columns t)); [|done].
  intros [= <-]. apply length_fmap.
Qed.

(** X4. Whenever [arlequin_plot] gets through its layout part, the context
    length is 3 or 4 and the table has the key column; the two meshes are
    the triangle lists of the grid of 4 or 16 columns and 16 rows; and
    each payload array has one value per row of the table, whatever the
    number of rows: it is not compared with the number of triangles. *)
Theorem arlequin_plot_layout (s s' : store) (df : ref) (t : DataFrame)
    (unit_name base : string) (unit_len : Z) (l : layout) :
  s !! df = Some t → wf t →
  arlequin_plot df unit_name unit_len base s = (Ok l, s') →
  (unit_len = 3 ∨ unit_len = 4)%Z
  ∧ unit_name ∈ columns t
  ∧ l_upper l = upper_triangle (Z.to_nat (4 ^ (unit_len - 2))) 16
  ∧ l_lower l = lower_triangle (Z.to_nat (4 ^ (unit_len - 2))) 16
  ∧ length (l_upper l) = Z.to_nat (4 ^ (unit_len - 2)) * 16
  ∧ length (l_lower l) = Z.to_nat (4 ^ (unit_len - 2)) * 16
  ∧ length (l_xs l) = (Z.to_nat (4 ^ (unit_len - 2)) + 1) * 17
  ∧ length (l_ys l) = (Z.to_nat (4 ^ (unit_len - 2)) + 1) * 17
  ∧ length (l_sz1 l) = length (rows t)
  ∧ length (l_sz2 l) = length (rows t).
Proof.
  intros Hs Hwf.
  unfold arlequin_plot, mbind, M_bind, bind, lift, mret, M_ret, ret.
  destruct (get_axes unit_len base) as [[[xaxis yaxis] order]|e] eqn:Haxes; [|done].
  assert (unit_len = 3 ∨ unit_len = 4)%Z as Hlen.
  { unfold get_axes, xaxis_of in Haxes.
    destruct (Z.eqb_spec unit_len 4); [by right|].
    destruct (Z.eqb_spec unit_len 3); [by left|done]. }
  destruct (col_pos unit_name (columns t)) as [p|] eqn:Hp.
  2:{ by rewrite (reorder_labels_missing_column s df t unit_name order Hs Hp). }
  destruct (reorder_labels_result s df t unit_name p order Hs Hwf Hp)
    as (s1 & t1 & -> & Ht1 & Hrows).
  unfold read. rewrite Ht1.
  destruct (Pd.getitem t1 "col1") as [sz1|] eqn:H1; [|done].
  destruct (Pd.getitem t1 "col2") as [sz2|] eqn:H2; [|done].
  intros [= <- <-]. cbn [l_upper l_lower l_xs l_ys l_sz1 l_sz2].
  change (Z.to_nat (4 ^ 2)) with 16.
  split; [done|]. split; [by apply col_pos_Some, list_elem_of_lookup_2 in Hp|].
  split; [done|]. split; [done|].
  unfold upper_triangle, lower_triangle, xs_ravel, ys_ravel.
  rewrite !grid_length.
  apply getitem_length in H1, H2. by rewrite H1, H2, Hrows.
Qed.

Lemma arlequin_plot_layout_witness :
  ∃ l s',
    arlequin_plot 0 "tetramer" 3 "T" [arlequin_table] = (Ok l, s')
    ∧ (3 = 3 ∨ 3 = 4)%Z
    ∧ "tetramer" ∈ columns arlequin_table
    ∧ l_upper l = upper_triangle (Z.to_nat (4 ^ (3 - 2))) 16
    ∧ l_lower l = lower_triangle (Z.to_nat (4 ^ (3 - 2))) 16
    ∧ length (l_upper l) = Z.to_nat (4 ^ (3 - 2)) * 16
    ∧ length (l_lower l) = Z.to_nat (4 ^ (3 - 2)) * 16
    ∧ length (l_xs l) = (Z.to_nat (4 ^ (3 - 2)) + 1) * 17
    ∧ length (l_ys l) = (Z.to_nat (4 ^ (3 - 2)) + 1) * 17
    ∧ length (l_sz1 l) = length (rows arlequin_table)
    ∧ length (l_sz2 l) = length (rows arlequin_table).
Proof.
  destruct (arlequin_plot 0 "tetramer" 3 "T" [arlequin_table]) as [[l|e] s'] eqn:E.
  - exists l, s'. split; [done|].
    apply (arlequin_plot_layout [arlequin_table] s' 0 arlequin_table
             "tetramer" "T" 3 l); [reflexivity| |exact E].
    split; [apply (bool_decide_unpack _); by vm_compute|]. repeat constructor.
  - exfalso. vm_compute in E. discriminate E.
Defined.

(** X9. [arlequin_plot] stops before it touches the table when the
    context length is neither 3 nor 4 or the table has no key column: it
    raises the name error of the column order, respectively the key error
    of the column, and leaves the store as it was. *)
Theorem arlequin_plot_refuses (s : store) (df : ref) (t : DataFrame)
    (unit_name base : string) (unit_len : Z) :
  s !! df = Some t →
  (unit_len ≠ 3 ∧ unit_len ≠ 4)%Z ∨ unit_name ∉ columns t →
  arlequin_plot df unit_name unit_len base s
  = (Raise (if bool_decide (unit_len = 3 ∨ unit_len = 4)%Z
            then KeyError unit_name else NameError "xaxis"), s).
Proof.
  intros Hs Hbad.
  unfold arlequin_plot, mbind, M_bind, bind, lift.
  unfold get_axes, xaxis_of.
  destruct (Z.eqb_spec unit_len 4) as [H4|H4];
    [|destruct (Z.eqb_spec unit_len 3) as [H3|H3]].
  - destruct Hbad as [[_ ?]|Hcol]; [done|]. apply col_pos_None in Hcol.
    rewrite (reorder_labels_missing_column _ _ _ _ _ Hs Hcol).
    by rewrite bool_decide_eq_true_2 by (by right).
  - destruct Hbad as [[? _]|Hcol]; [done|]. apply col_pos_None in Hcol.
    rewrite (reorder_labels_missing_column _ _ _ _ _ Hs Hcol).
    by rewrite bool_decide_eq_true_2 by (by left).
  - by rewrite bool_decide_eq_false_2 by lia.
Qed.

Lemma arlequin_plot_refuses_witness :
  arlequin_plot 0 "hexamer" 4 "T" [arlequin_table]
  = (Raise (if bool_decide (4 = 3 ∨ 4 = 4)%Z
            then KeyError "hexamer" else NameError "xaxis"), [arlequin_table]).
Proof.
  apply (arlequin_plot_refuses [arlequin_table] 0 arlequin_table "hexamer" "T" 4).
  - reflexivity.
  - right. apply (bool_decide_unpack _). by vm_compute.
Defined.

(** ** [bconf_heatmap]: the grid *)

Lemma chunks_lookup {A} (c r : nat) (l : list A) (i j : nat) :
  i < r → j < c → length l = r * c →
  ∃ row, chunks c r l !! i = Some row
         ∧ length row = c
         ∧ row !! j = l !! (j + i * c).
Proof.
  revert l i. induction r as [|r IH]; intros l i Hi Hj Hlen; [lia|].
  destruct i as [|i]; simpl.
  - exists (take c l). split; [done|]. split.
    + rewrite length_take. lia.
    + rewrite Nat.add_0_r. by apply lookup_take_lt.
  - destruct (IH (drop c l) i) as (row & Hrow & Hlr & Hj'); [lia|done| |].
    + rewrite length_drop. lia.
    + exists row. split; [done|]. split; [done|].
      rewrite Hj', lookup_drop. f_equal. lia.
Qed.

Lemma chunks_length {A} (c r : nat) (l : list A) : length (chunks c r l) = r.
Proof. revert l. induction r as [|r IH]; intros l; simpl; [done|]. by rewrite IH. Qed.

Lemma chunks_rows {A} (c r : nat) (l : list A) :
  length l = r * c → Forall (λ row, length row = c) (chunks c r l).
Proof.
  revert l. induction r as [|r IH]; intros l Hlen; simpl; constructor.
  - rewrite length_take. lia.
  - apply IH. rewrite length_drop. lia.
Qed.

Lemma NoDup_fmap_eq {A B} (f : A → B) (l : list A) (x y : A) :
  NoDup (f <$> l) → x ∈ l → y ∈ l → f x = f y → x = y.
Proof.
  induction l as [|a l IH]; [by intros _ ?%elem_of_nil|].
  rewrite fmap_cons, NoDup_cons, !elem_of_cons.
  intros [Ha Hnd] [->|Hx] [->|Hy] Hxy; [done| | |by apply IH].
  - exfalso. apply Ha. rewrite Hxy. apply list_elem_of_fmap. by exists y.
  - exfalso. apply Ha. rewrite <- Hxy. apply list_elem_of_fmap. by exists x.
Qed.

(** The table after the right join, row by row. *)
Lemma bconf_table_rows (df : DataFrame) (base : string) (p : nat) :
  col_pos "tetramer" (columns df) = Some p →
  Forall (λ r : row, is_Str (cell_at p r)) (rows df) →
  NoDup (cell_at p <$> rows df) →
  ∃ joined,
    bconf_table df base
    = Ok (mkDF (columns df) (zip (range_index (length joined)) joined))
    ∧ Forall2 (joined_for (rows df) p (length (columns df)))
              (Str <$> bconf_order base) joined.
Proof.
  intros Hp Hstr Hnd. unfold bconf_table, Pd.merge_right.
  rewrite Hp, of_column_getitem, (keys_mergeable_strings _ _ _ Hstr). eexists. split; [reflexivity|].
  by apply merge_joined.
Qed.

(** X10. For every table with the columns [tetramer] and [pct] and
    distinct string keys, [bconf_heatmap] hands a grid of 16 rows of 16 cells to
    the drawing call; the cell in column [j] of row [i] belongs to the key
    made of the axis label [j] placed in the axis label [i]: it is the
    percentage of the input row with that key, and the missing value when
    the input has no such row. *)
Theorem bconf_heatmap_grid (df : DataFrame) (base : string) (p q : nat) :
  wf df →
  col_pos "tetramer" (columns df) = Some p → col_pos "pct" (columns df) = Some q →
  Forall (λ r : row, is_Str (cell_at p r)) (rows df) →
  NoDup (cell_at p <$> rows df) →
  ∃ grid,
    bconf_heatmap df base = Ok grid
    ∧ length grid = 16
    ∧ Forall (λ row, length row = 16) grid
    ∧ ∀ i j f b,
        bconf_axis base !! i = Some f → bconf_axis base !! j = Some b →
        ∃ row v,
          grid !! i = Some row ∧ row !! j = Some v
          ∧ ((Str (Py.join b (Py.chars f)) ∉ cell_at p <$> rows df) → v = NaN)
          ∧ ∀ r, r ∈ rows df → cell_at p r = Str (Py.join b (Py.chars f))
                 → v = cell_at q r.
Proof.
  intros Hwf Hp Hq Hstr Hnd.
  destruct (bconf_table_rows df base p Hp Hstr Hnd) as (joined & Htable & Hj).
  pose proof (Forall2_length _ _ _ Hj) as Hlen.
  rewrite length_fmap, bconf_order_length in Hlen.
  assert (p ≠ q) as Hpq.
  { intros ->. apply col_pos_Some in Hp, Hq. congruence. }
  unfold bconf_heatmap. rewrite Htable. unfold Pd.getitem. cbn [columns rows].
  rewrite Hq. unfold reshape.
  rewrite decide_True by (by rewrite length_fmap, length_zip_with, length_range_index, <- Hlen).
  eexists. split; [reflexivity|]. split; [apply chunks_length|].
  split.
  { apply chunks_rows.
    by rewrite length_fmap, length_zip_with, length_range_index, <- Hlen. }
  intros i j f b Hf Hb.
  pose proof (lookup_lt_Some _ _ _ Hf) as Hi.
  pose proof (lookup_lt_Some _ _ _ Hb) as Hj'.
  change (length (bconf_axis base)) with 16 in Hi, Hj'.
  set (pct := cell_at q <$> zip (range_index (length joined)) joined).
  destruct (chunks_lookup 16 16 pct i j Hi Hj') as (row & Hrow & _ & Hcell).
  { unfold pct. by rewrite length_fmap, length_zip_with, length_range_index, <- Hlen. }
  pose proof (join_axes_lookup (bconf_axis base) (bconf_axis base) i j f b Hf Hb) as Hkey.
  change (length (bconf_axis base)) with 16 in Hkey.
  fold (bconf_order base) in Hkey.
  assert ((Str <$> bconf_order base) !! (j + i * 16)
          = Some (Str (Py.join b (Py.chars f)))) as Hkey'
    by (by rewrite list_lookup_fmap, Hkey).
  destruct (Forall2_lookup_l _ _ _ _ _ Hj Hkey') as (cells & Hcells & Hfor).
  assert (pct !! (j + i * 16) = Some (default NaN (cells !! q))) as Hpct.
  { unfold pct. rewrite list_lookup_fmap.
    assert (zip (range_index (length joined)) joined !! (j + i * 16)
            = Some (Num (Z.of_nat (j + i * 16)), cells)) as ->; [|done].
    apply lookup_zip_with_Some. eexists _, _. split; [done|]. split; [|done].
    unfold range_index. rewrite list_lookup_fmap, lookup_seq_lt; [done|].
    by eapply lookup_lt_Some. }
  exists row, (default NaN (cells !! q)).
  split; [done|]. split; [by rewrite Hcell|].
  destruct Hfor as [[Habs ->]|[Hin Hk]].
  - split.
    + intros _. unfold Pd.nan_row. rewrite list_lookup_insert_ne by done.
      destruct (replicate (length (columns df)) NaN !! q) as [c|] eqn:E; [|done].
      by apply lookup_replicate in E as [-> _].
    + intros r Hr Hkr. contradict Habs. rewrite <- Hkr.
      apply list_elem_of_fmap. by exists r.
  - split.
    + intros Habs. contradict Habs.
      apply list_elem_of_fmap in Hin as (r & -> & Hr).
      apply list_elem_of_fmap. by exists r.
    + intros r Hr Hkr. apply list_elem_of_fmap in Hin as (r' & -> & Hr').
      assert (r = r') as ->; [|done].
      apply (NoDup_fmap_eq (cell_at p) (rows df)); [done|done|done|].
      by rewrite Hkr.
Qed.

Lemma bconf_heatmap_grid_witness :
  ∃ grid,
    bconf_heatmap sparse_table "T" = Ok grid
    ∧ length grid = 16
    ∧ Forall (λ row, length row = 16) grid
    ∧ ∀ i j f b,
        bconf_axis "T" !! i = Some f → bconf_axis "T" !! j = Some b →
        ∃ row v,
          grid !! i = Some row ∧ row !! j = Some v
          ∧ ((Str (Py.join b (Py.chars f)) ∉ cell_at 0 <$> rows sparse_table)
             → v = NaN)
          ∧ ∀ r, r ∈ rows sparse_table → cell_at 0 r = Str (Py.join b (Py.chars f))
                 → v = cell_at 1 r.
Proof.
  apply (bconf_heatmap_grid sparse_table "T" 0 1).
  - split; [apply (bool_decide_unpack _); by vm_compute|]. repeat constructor.
  - reflexivity.
  - reflexivity.
  - repeat constructor; by eexists.
  - apply (bool_decide_unpack _). by vm_compute.
Defined.

(** ** [bconf_heatmap]: keys that repeat and keys that are not canonical *)

Lemma bind_length_gt {A B} (g : A → list B) (l : list A) (x : A) :
  (∀ a, 1 ≤ length (g a)) → x ∈ l → 1 < length (g x) →
  length l < length (l ≫= g).
Proof.
  intros Hg Hx Hgx.
  assert (∀ l', length l' ≤ length (l' ≫= g)) as Hle.
  { induction l' as [|a l' IH]; [done|].
    rewrite bind_cons, length_app. specialize (Hg a). simpl. lia. }
  induction l as [|a l IH]; [by apply elem_of_nil in Hx|].
  rewrite bind_cons, length_app. simpl.
  apply elem_of_cons in Hx as [<-|Hx].
  - specialize (Hle l). lia.
  - specialize (IH Hx). specialize (Hg a). lia.
Qed.

(** X11. When a canonical key stands in two rows of the input, the joined
    table has more than 256 rows and the reshaping to 16 by 16 fails:
    [bconf_heatmap] raises a value error. *)
Theorem bconf_heatmap_repeated_key (df : DataFrame) (base k : string) (p : nat) :
  col_pos "tetramer" (columns df) = Some p → "pct" ∈ columns df →
  k ∈ bconf_order base →
  1 < length (filter (λ r : row, cell_at p r = Str k) (rows df)) →
  bconf_heatmap df base = Raise ValueError.
Proof.
  intros Hp Hpct Hk Htwice.
  destruct (col_pos "pct" (columns df)) as [q|] eqn:Hq;
    [|by apply col_pos_None in Hq].
  assert (Pd.keys_mergeable (cell_at p <$> rows df) (Str <$> bconf_order base)
          = true) as Hmerge.
  { apply keys_mergeable_object. right. exists (Str k). split; [|by eexists].
    destruct (filter (λ r : row, cell_at p r = Str k) (rows df)) as [|r rs] eqn:E;
      [simpl in Htwice; lia|].
    assert (r ∈ filter (λ r : row, cell_at p r = Str k) (rows df)) as Hr
      by (rewrite E; apply elem_of_cons; by left).
    apply list_elem_of_filter in Hr as [Hkey Hr].
    apply list_elem_of_fmap. by exists r. }
  unfold bconf_heatmap, bconf_table, Pd.merge_right.
  rewrite Hp, of_column_getitem, Hmerge. unfold Pd.getitem. cbn [columns rows].
  rewrite Hq. unfold reshape.
  rewrite decide_False; [done|].
  rewrite length_fmap, length_zip_with, length_range_index, Nat.min_id.
  match goal with
  | |- length (?keys ≫= ?g) ≠ _ =>
      pose proof (bind_length_gt g keys (Str k)) as Hgt
  end.
  rewrite length_fmap, bconf_order_length in Hgt.
  cut (256 < length ((Str <$> bconf_order base) ≫=
    (λ k0 : cell,
       match filter (λ r : row, cell_at p r = k0) (rows df) with
       | [] => [Pd.nan_row p (length (columns df)) k0]
       | matches => matches.*2
       end))); [lia|].
  apply Hgt.
  - intros a.
    destruct (filter (λ r : row, cell_at p r = a) (rows df)); simpl; lia.
  - apply list_elem_of_fmap. by exists k.
  - destruct (filter (λ r : row, cell_at p r = Str k) (rows df)) as [|r rs];
      [simpl in Htwice; lia|].
    by rewrite length_fmap.
Qed.

Lemma bconf_heatmap_repeated_key_witness :
  bconf_heatmap repeated_key_table "T" = Raise ValueError.
Proof.
  apply (bconf_heatmap_repeated_key repeated_key_table "T" "GGGG" 0).
  - reflexivity.
  - apply (bool_decide_unpack _). by vm_compute.
  - apply (bool_decide_unpack _). by vm_compute.
  - vm_compute. lia.
Defined.

(** X12. For a table with string keys the right join keeps canonical keys
    only: every row of the joined table has a canonical key, so an input
    row whose key is not canonical is dropped without notice, whether the
    input keys repeat or not. *)
Theorem bconf_table_drops_foreign_key (df : DataFrame) (base : string)
    (p : nat) (r : row) :
  col_pos "tetramer" (columns df) = Some p →
  Forall (λ r : row, is_Str (cell_at p r)) (rows df) →
  r ∈ rows df → cell_at p r ∉ Str <$> bconf_order base →
  ∃ out,
    bconf_table df base = Ok out
    ∧ Forall (λ r' : row, cell_at p r' ∈ Str <$> bconf_order base) (rows out)
    ∧ r.2 ∉ values out.
Proof.
  intros Hp Hstr Hr Hforeign. unfold bconf_table, Pd.merge_right.
  rewrite Hp, of_column_getitem, (keys_mergeable_strings _ _ _ Hstr). eexists. split; [reflexivity|].
  cbn [rows]. unfold values. cbn [rows].
  rewrite snd_zip by (by rewrite length_range_index).
  set (keys := Str <$> bconf_order base) in *.
  assert (∀ cells,
            cells ∈ (k ← keys;
                     match filter (λ r : row, cell_at p r = k) (rows df) with
                     | [] => [Pd.nan_row p (length (columns df)) k]
                     | matches => matches.*2
                     end)
            → default NaN (cells !! p) ∈ keys) as Hcanon.
  { intros cells (k & Hcells & Hk)%list_elem_of_bind.
    destruct (filter (λ r : row, cell_at p r = k) (rows df)) as [|r0 rs] eqn:E.
    - apply list_elem_of_singleton in Hcells as ->.
      unfold Pd.nan_row. apply col_pos_Some, lookup_lt_Some in Hp.
      by rewrite list_lookup_insert_eq by (by rewrite length_replicate).
    - apply list_elem_of_fmap in Hcells as (r' & -> & Hr').
      rewrite <- E in Hr'. apply list_elem_of_filter in Hr' as [Hkey _].
      unfold cell_at in Hkey. by rewrite Hkey. }
  split.
  - apply Forall_forall. intros [lab cells] Hin.
    apply Hcanon. apply (elem_of_zip_r _ _ _ _ Hin).
  - intros Hin. apply Hforeign. by apply Hcanon in Hin.
Qed.

Lemma bconf_table_drops_foreign_key_witness :
  ∃ out,
    bconf_table absent_key_table "T" = Ok out
    ∧ Forall (λ r' : row, cell_at 0 r' ∈ Str <$> bconf_order "T") (rows out)
    ∧ (Num 1, [Str "XXXX"; Num 6]).2 ∉ values out.
Proof.
  apply (bconf_table_drops_foreign_key absent_key_table "T" 0
           (Num 1, [Str "XXXX"; Num 6])).
  - reflexivity.
  - repeat constructor; by eexists.
  - apply (bool_decide_unpack _). by vm_compute.
  - apply (bool_decide_unpack _). by vm_compute.
Defined.



(** ** [correlation_plot]: what the reordering keeps *)

(** The rows under each label of a listing, label after label, are the
    rows in another arrangement. *)
Lemma bind_filter_partition {A B} `{EqDecision B} (f : A → B)
    (cs : list B) (l : list A) :
  NoDup cs → Forall (λ x, f x ∈ cs) l →
  (c ← cs; filter (λ x, f x = c) l) ≡ₚ l.
Proof.
  revert l. induction cs as [|c cs IH]; intros l Hnd Hl.
  - destruct Hl as [|x l Hx _]; [done|]. by apply elem_of_nil in Hx.
  - apply NoDup_cons in Hnd as [Hc Hnd]. rewrite bind_cons.
    etrans; [|apply (filter_app_complement (λ x, f x = c) l)].
    apply Permutation_app_head.
    assert ((c' ← cs; filter (λ x, f x = c') l)
            = (c' ← cs; filter (λ x, f x = c') (filter (λ x, f x ≠ c) l))) as ->.
    { apply Forall_bind_ext, Forall_forall.
      intros c' Hc'. rewrite list_filter_filter.
      apply list_filter_iff. intros x. split; [|by intros [? _]].
      intros ->. split; [done|]. by intros <-. }
    apply IH; [done|].
    apply Forall_forall. intros x [Hne Hx]%list_elem_of_filter.
    eapply Forall_forall in Hl; [|done].
    apply elem_of_cons in Hl as [?|?]; done.
Qed.

Lemma take_pos_length {A} (ps : list nat) (l : list A) :
  Forall (λ p, p < length l) ps → length (take_pos ps l) = length ps.
Proof.
  unfold take_pos. induction 1 as [|p ps Hp _ IH]; [done|]. csimpl.
  destruct (lookup_lt_is_Some_2 l p Hp) as [x ->]. csimpl. by rewrite IH.
Qed.

Lemma take_pos_fmap {A B} (f : A → B) (ps : list nat) (l : list A) :
  take_pos ps (f <$> l) = f <$> take_pos ps l.
Proof.
  unfold take_pos. induction ps as [|p ps IH]; [done|]. csimpl.
  rewrite list_lookup_fmap. destruct (l !! p); csimpl; by rewrite IH.
Qed.

(** [.loc] with a listing of the outer labels: the positions it selects. *)
Lemma loc_positions_listing (ix : list (string * string)) (cs : list string) :
  Forall (λ c, c ∈ ix.*1) cs →
  loc_positions ix cs
  = Ok ((c ← cs; filter (λ pe : nat * (string * string), pe.2.1 = c)
                        (zip (seq 0 (length ix)) ix)).*1).
Proof.
  induction 1 as [|c cs Hc _ IH]; [done|]. simpl. rewrite IH.
  unfold positions_of.
  destruct (filter _ (zip (seq 0 (length ix)) ix)) as [|pe pes] eqn:E.
  - exfalso. apply list_elem_of_fmap in Hc as ([c0 u] & -> & Hin).
    apply list_elem_of_lookup in Hin as [i Hi].
    assert ((i, (c0, u)) ∈ filter (λ pe : nat * (string * string), pe.2.1 = c0)
                             (zip (seq 0 (length ix)) ix)) as Hf.
    { apply list_elem_of_filter. split; [done|].
      apply list_elem_of_lookup. exists i. apply lookup_zip_with_Some.
      eexists _, _. split; [done|]. split; [|done].
      apply lookup_seq. split; [done|]. by eapply lookup_lt_Some. }
    simpl in E. rewrite E in Hf. by apply elem_of_nil in Hf.
  - by rewrite fmap_app.
Qed.


(** The entries selected through a listing of the outer labels are the
    entries of the index in another arrangement. *)
Lemma loc_take_perm (ix : list (string * string)) (cs : list string) :
  set_listing (ix.*1) cs →
  ∃ ps, loc_positions ix cs = Ok ps
        ∧ Forall (λ p, p < length ix) ps
        ∧ length ps = length ix
        ∧ take_pos ps ix ≡ₚ ix.
Proof.
  intros [Hnd Hcs].
  set (Z := zip (seq 0 (length ix)) ix).
  set (sel := c ← cs; filter (λ pe : nat * (string * string), pe.2.1 = c) Z).
  assert (sel ≡ₚ Z) as Hperm.
  { apply (bind_filter_partition (λ pe : nat * (string * string), pe.2.1));
      [done|].
    apply Forall_forall. intros [i [c u]] Hin. apply Hcs. simpl.
    apply elem_of_zip_r in Hin. apply list_elem_of_fmap. by exists (c, u). }
  assert (Forall (λ pe : nat * (string * string), ix !! pe.1 = Some pe.2) sel)
    as Hsel by (rewrite Hperm; apply zip_positions).
  exists (sel.*1). split.
  { apply loc_positions_listing. apply Forall_forall. intros c Hc. by apply Hcs. }
  split.
  { apply Forall_fmap. eapply Forall_impl; [exact Hsel|].
    intros pe Hpe. unfold compose. simpl in *. by eapply lookup_lt_Some. }
  split.
  { rewrite length_fmap, Hperm. unfold Z.
    rewrite length_zip_with, length_seq. lia. }
  rewrite take_pos_positions by done. rewrite Hperm. unfold Z.
  by rewrite snd_zip by (rewrite length_seq; lia).
Qed.

Lemma sort_take_perm (ix : list (string * string)) :
  Forall (λ p, p < length ix) (sort_level1_positions ix)
  ∧ length (sort_level1_positions ix) = length ix
  ∧ take_pos (sort_level1_positions ix) ix ≡ₚ ix.
Proof.
  unfold sort_level1_positions.
  set (Z := zip (seq 0 (length ix)) ix).
  assert (Forall (λ pe : nat * (string * string), ix !! pe.1 = Some pe.2)
                 (merge_sort entry_le Z)) as Hs
    by (rewrite merge_sort_Permutation; apply zip_positions).
  split.
  { apply Forall_fmap. eapply Forall_impl; [exact Hs|].
    intros pe Hpe. unfold compose. simpl in *. by eapply lookup_lt_Some. }
  split.
  { rewrite length_fmap, merge_sort_Permutation. unfold Z.
    rewrite length_zip_with, length_seq. lia. }
  rewrite take_pos_positions by done. rewrite merge_sort_Permutation. unfold Z.
  by rewrite snd_zip by (rewrite length_seq; lia).
Qed.

(** The matrix after the reordering, for a listing of the outer labels
    of both axes. *)
Lemma reorder_dataset_result (coordinates : list string) (data : Matrix) :
  set_listing ((m_index data).*1) coordinates →
  set_listing ((m_columns data).*1) coordinates →
  length (m_values data) = length (m_index data) →
  ∃ data',
    reorder_dataset coordinates data = Ok data'
    ∧ m_index data' ≡ₚ m_index data
    ∧ m_columns data' ≡ₚ m_columns data
    ∧ length (m_values data') = length (m_index data)
    ∧ (m_index data = m_columns data → m_index data' = m_columns data').
Proof.
  intros Hix Hcx Hvals. destruct data as [ix cx vals]. simpl in *.
  destruct (loc_take_perm ix coordinates Hix) as (ps & Hps & Hpslt & Hpslen & Hpsperm).
  destruct (loc_take_perm cx coordinates Hcx) as (qs & Hqs & Hqslt & Hqslen & Hqsperm).
  unfold reorder_dataset. cbn [m_index m_columns take_rows take_cols m_values].
  rewrite Hps, Hqs. eexists. split; [reflexivity|].
  cbn [m_index m_columns take_rows take_cols m_values].
  destruct (sort_take_perm (take_pos ps ix)) as (Hslt & Hslen & Hsperm).
  destruct (sort_take_perm (take_pos qs cx)) as (_ & _ & Hsperm').
  assert (length (take_pos ps ix) = length ix) as Lix
    by (by rewrite take_pos_length).
  assert (length (take_pos ps vals) = length ix) as Lvals
    by (rewrite take_pos_length; [done|by rewrite Hvals]).
  split; [by rewrite Hsperm|]. split; [by rewrite Hsperm'|]. split.
  - rewrite length_fmap, take_pos_length.
    + by rewrite Hslen.
    + by rewrite length_fmap, Lvals, <- Lix.
  - intros <-. rewrite Hps in Hqs. by injection Hqs as <-.
Qed.

(** X13. When the coordinates are a listing of the outer labels of both
    axes, the reordering succeeds and keeps every entry: the row index
    and the column index of the result are those of the input in another
    arrangement, the matrix keeps its number of rows, and axes that were
    equal stay equal. *)
Theorem reorder_dataset_keeps_entries (coordinates : list string) (data : Matrix) :
  set_listing ((m_index data).*1) coordinates →
  set_listing ((m_columns data).*1) coordinates →
  length (m_values data) = length (m_index data) →
  ∃ data',
    reorder_dataset coordinates data = Ok data'
    ∧ m_index data' ≡ₚ m_index data
    ∧ m_columns data' ≡ₚ m_columns data
    ∧ length (m_values data') = length (m_index data)
    ∧ (m_index data = m_columns data → m_index data' = m_columns data').
Proof. apply reorder_dataset_result. Qed.

Lemma corr_matrix_listing :
  set_listing ((m_index corr_matrix).*1) ["twist"; "shift"]
  ∧ set_listing ((m_columns corr_matrix).*1) ["twist"; "shift"].
Proof.
  split; (split; [apply (bool_decide_unpack _); by vm_compute|]);
    intros x; simpl; rewrite !elem_of_cons, !elem_of_nil; tauto.
Defined.

Lemma reorder_dataset_keeps_entries_witness :
  ∃ data',
    reorder_dataset ["twist"; "shift"] corr_matrix = Ok data'
    ∧ m_index data' ≡ₚ m_index corr_matrix
    ∧ m_columns data' ≡ₚ m_columns corr_matrix
    ∧ length (m_values data') = length (m_index corr_matrix)
    ∧ (m_index corr_matrix = m_columns corr_matrix
       → m_index data' = m_columns data').
Proof.
  apply (reorder_dataset_keeps_entries ["twist"; "shift"] corr_matrix).
  - apply corr_matrix_listing.
  - apply corr_matrix_listing.
  - reflexivity.
Defined.

(** ** [correlation_plot]: tick positions of small blocks *)

Lemma tick_locs_zero_step (n K : Z) :
  (0 ≤ n < 2 * K)%Z → tick_locs n K = Raise ZeroDivisionError.
Proof.
  intros Hn. unfold tick_locs, arange.
  destruct (Z.eqb_spec (2 * K) 0) as [?|_]; [done|].
  rewrite Z.div_small by lia. done.
Qed.

(** X14. With fewer than two rows per coordinate on average,
    [correlation_plot] raises a division error: the start of the tick
    positions is rounded down to zero, and so is their step. *)
Theorem correlation_plot_too_few_rows (coordinates : list string) (data : Matrix) :
  set_listing ((m_index data).*1) coordinates →
  set_listing ((m_columns data).*1) coordinates →
  length (m_values data) = length (m_index data) →
  length (m_index data) < 2 * length coordinates →
  correlation_plot coordinates data = Raise ZeroDivisionError.
Proof.
  intros Hix Hcx Hvals Hfew.
  destruct (reorder_dataset_result coordinates data Hix Hcx Hvals)
    as (data' & Hre & _ & _ & Hlen & _).
  unfold correlation_plot. rewrite Hre, Hlen.
  rewrite tick_locs_zero_step; [done|lia].
Qed.

Lemma correlation_plot_too_few_rows_witness :
  correlation_plot ["twist"; "shift"] single_unit_matrix = Raise ZeroDivisionError.
Proof.
  apply (correlation_plot_too_few_rows ["twist"; "shift"] single_unit_matrix).
  - split; [apply (bool_decide_unpack _); by vm_compute|].
    intros x. simpl. rewrite !elem_of_cons, !elem_of_nil. tauto.
  - split; [apply (bool_decide_unpack _); by vm_compute|].
    intros x. simpl. rewrite !elem_of_cons, !elem_of_nil. tauto.
  - reflexivity.
  - vm_compute. lia.
Defined.

(** X15. Blocks of two rows get one tick fewer than there are
    coordinates: the positions are 1, 3, ..., 2K - 3. *)
Theorem tick_locs_blocks_of_two (K : Z) :
  (1 ≤ K)%Z →
  tick_locs (2 * K) K = Ok ((λ i, 1 + Z.of_nat i * 2)%Z <$> seq 0 (Z.to_nat (K - 1))).
Proof.
  intros HK. unfold tick_locs, arange.
  destruct (Z.eqb_spec (2 * K) 0) as [?|_]; [lia|].
  rewrite Z.div_same by lia. change (2 * 1)%Z with 2%Z.
  change (2 =? 0)%Z with false. cbn iota.
  replace ((2 * K - 1 - 1 + 2 - 1) `div` 2)%Z with (K - 1)%Z; [done|].
  apply (Z.div_unique_pos _ _ (K - 1) 1); lia.
Qed.

Lemma tick_locs_blocks_of_two_witness :
  tick_locs (2 * 3) 3 = Ok ((λ i, 1 + Z.of_nat i * 2)%Z <$> seq 0 (Z.to_nat (3 - 1))).
Proof. apply (tick_locs_blocks_of_two 3). lia. Defined.

(** ** [basepair_plot] *)

Lemma unique_elem (l : list string) (x : string) : x ∈ unique l ↔ x ∈ l.
Proof.
  induction l as [|y l IH]; [done|]. simpl.
  rewrite !elem_of_cons, list_elem_of_filter, IH.
  destruct (decide (x = y)); tauto.
Qed.

Lemma unique_NoDup (l : list string) : NoDup (unique l).
Proof.
  induction l as [|y l IH]; simpl; constructor.
  - by intros [? _]%list_elem_of_filter.
  - by apply NoDup_filter.
Qed.

Lemma categories_strings (rs : list row) :
  Forall (λ r : row, is_Str r.1) rs →
  categories (rs.*1) = Ok (category_str <$> rs).
Proof.
  induction 1 as [|[lab cs] rs [k Hk] _ IH]; [done|].
  simpl in Hk. subst lab. csimpl. by rewrite IH.
Qed.

Lemma categories_type_error (rs : list row) :
  ¬ Forall (λ r : row, is_Str r.1) rs →
  categories (rs.*1) = Raise TypeError.
Proof.
  induction rs as [|[lab cs] rs IH]; intros Hnot; [by destruct Hnot|].
  csimpl. destruct lab as [k| |]; [|done|done]. simpl.
  rewrite IH; [done|]. intros Hall. apply Hnot. constructor; [by exists k|done].
Qed.

Lemma strip_filter_pred (n : nat) (g : row → cell) (P : cell → Prop)
    `{∀ c, Decision (P c)} (rs : list row) :
  Forall (λ r : row, length r.2 = n) rs →
  (λ r : row, (r.1, remove_at n r.2))
    <$> filter (λ r' : row, P (cell_at n r'))
               ((λ r : row, (r.1, r.2 ++ [g r])) <$> rs)
  = filter (λ r, P (g r)) rs.
Proof.
  induction 1 as [|[lab cs] rs Hr Hrs IH]; [done|].
  simpl in Hr. subst n.
  assert (cell_at (length cs) (lab, cs ++ [g (lab, cs)]) = g (lab, cs)) as E.
  { unfold cell_at. simpl. by rewrite list_lookup_middle. }
  rewrite fmap_cons, !filter_cons. cbn [fst snd]. rewrite E.
  destruct (decide (P (g (lab, cs)))); [|done].
  rewrite fmap_cons. cbn [fst snd]. rewrite remove_at_snoc. f_equal. exact IH.
Qed.

(** The panels of a table that carries the category column. *)
Lemma category_panels_spec (cols : list string) (rs : list row) (cats : list string) :
  col_pos "category" cols = None →
  Forall (λ r : row, length r.2 = length cols) rs →
  category_panels
    (mkDF (cols ++ ["category"])
          ((λ r : row, (r.1, r.2 ++ [Str (category_str r)])) <$> rs)) cats
  = Ok ((λ cat, (cat, mkDF cols (filter (λ r, category_str r = cat) rs))) <$> cats).
Proof.
  intros Hfresh Hwf. induction cats as [|cat cats IH]; [done|].
  simpl. unfold select_category. cbn [columns rows].
  rewrite (col_pos_app_new _ _ Hfresh). unfold Pd.drop. cbn [columns rows].
  rewrite (col_pos_app_new _ _ Hfresh), IH, remove_at_snoc.
  do 4 f_equal.
  etrans; [exact (strip_filter_pred (length cols) (λ r, Str (category_str r))
                    (λ c, c = Str cat) rs Hwf)|].
  apply list_filter_iff. intros r. split; congruence.
Qed.

(** X16. For a table with string index labels, [basepair_plot] draws one
    panel per distinct category, in the order in which the categories
    first occur; a panel has the columns of the table and exactly its
    rows of that category, in their order, so that every row is in one
    panel; the combined matrix has the same columns and the same rows, in
    ascending order of the category. *)
Theorem basepair_plot_panels (s : store) (data : ref) (t : DataFrame) :
  s !! data = Some t → wf t → "category" ∉ columns t →
  Forall (λ r : row, is_Str r.1) (rows t) →
  ∃ panels combined s',
    basepair_plot data s = (Ok (panels, combined), s')
    ∧ panels
      = (λ cat, (cat, mkDF (columns t) (filter (λ r, category_str r = cat) (rows t))))
          <$> unique (category_str <$> rows t)
    ∧ NoDup (panels.*1)
    ∧ (pd ← panels.*2; rows pd) ≡ₚ rows t
    ∧ columns combined = columns t
    ∧ rows combined ≡ₚ rows t
    ∧ Sorted (λ a b, Is_true (String.leb (category_str a) (category_str b)))
             (rows combined).
Proof.
  intros Hs [Hnd Hwf] Hfresh Hstr. apply col_pos_None in Hfresh.
  assert (data < length s) as Hlt by (by eapply lookup_lt_Some).
  set (g := λ r : row, Str (category_str r)).
  set (e := λ r : row, (r.1, r.2 ++ [g r])).
  set (n := length (columns t)) in *.
  set (strip := λ r : row, (r.1, remove_at n r.2)).
  unfold basepair_plot, mbind, M_bind, bind, read, lift, write, mret, M_ret, ret.
  rewrite Hs. unfold index. rewrite (categories_strings _ Hstr).
  rewrite <- list_fmap_compose. change (Str ∘ category_str) with g.
  rewrite setitem_new by done. rewrite list_lookup_insert_eq by done.
  rewrite (category_panels_spec _ _ _ Hfresh Hwf).
  unfold Pd.sort_values, Pd.getitem. cbn [columns rows].
  rewrite (col_pos_app_new _ _ Hfresh). fold n. fold e.
  assert (cell_at n <$> (e <$> rows t) = g <$> rows t) as Hcol.
  { rewrite <- list_fmap_compose. apply Forall_fmap_ext.
    eapply Forall_impl; [exact Hwf|]. intros [lab cs] Hr. simpl in Hr.
    unfold cell_at, e. simpl. fold n in Hr. rewrite <- Hr.
    by rewrite list_lookup_middle. }
  assert (Pd.sortable (cell_at n <$> (e <$> rows t)) = true) as ->.
  { rewrite Hcol. unfold Pd.sortable. apply orb_true_iff. right.
    apply forallb_forall. intros c (r & -> & _)%list_elem_of_In%list_elem_of_fmap.
    done. }
  unfold Pd.drop. cbn [columns rows].
  rewrite (col_pos_app_new _ _ Hfresh), remove_at_snoc.
  fold n. fold strip.
  destruct (take_sorted_spec (cell_at n) (e <$> rows t))
    as (pres & -> & Hperm & Hsorted).
  assert (∀ b, strip <$> filter (λ r' : row, isna (cell_at n r') = b) (e <$> rows t)
               = filter (λ r, isna (g r) = b) (rows t)) as Hstrip
    by (intros b; by apply strip_filter).
  assert (filter (λ r, isna (g r) = true) (rows t) = []) as Hnone.
  { clear. induction (rows t) as [|r rs IH]; [done|].
    by rewrite filter_cons, decide_False by done. }
  assert (filter (λ r, isna (g r) = false) (rows t) = rows t) as Hall.
  { clear. induction (rows t) as [|r rs IH]; [done|].
    by rewrite filter_cons, decide_True, IH by done. }
  rewrite fmap_app, (Hstrip true), Hnone, app_nil_r.
  eexists _, _, _. split; [reflexivity|]. split; [done|]. split.
  { rewrite <- list_fmap_compose. simpl. rewrite list_fmap_id. apply unique_NoDup. }
  split.
  { rewrite <- list_fmap_compose, list_fmap_bind. simpl.
    apply (bind_filter_partition category_str); [apply unique_NoDup|].
    apply Forall_forall. intros r Hr. apply unique_elem.
    apply list_elem_of_fmap. by exists r. }
  split; [done|]. cbn [rows]. split.
  { by rewrite Hperm, (Hstrip false), Hall. }
  apply (Sorted_fmap_on (λ r' : row, ∃ r, length r.2 = n ∧ r' = e r) strip
           (λ a b, Is_true (Pd.cell_leb (cell_at n a) (cell_at n b)))); [| |done].
  - intros a b (ra & Hra & ->) (rb & Hrb & ->) Hab.
    assert (∀ r : row, length r.2 = n → cell_at n (e r) = g r ∧ strip (e r) = r)
      as He.
    { intros [lab cs] Hr. simpl in Hr. unfold cell_at, strip, e. simpl.
      rewrite <- Hr. rewrite list_lookup_middle by done.
      by rewrite remove_at_snoc. }
    destruct (He ra Hra) as [Ha1 Ha2], (He rb Hrb) as [Hb1 Hb2].
    rewrite Ha1, Hb1 in Hab. by rewrite Ha2, Hb2.
  - rewrite Hperm. apply Forall_forall. intros r' Hr'.
    apply list_elem_of_filter in Hr' as [_ Hr'].
    apply list_elem_of_fmap in Hr' as (r & -> & Hr).
    exists r. split; [|done]. by eapply Forall_forall in Hwf.
Qed.

Lemma basepair_plot_panels_witness :
  ∃ panels combined s',
    basepair_plot 0 [basepair_table] = (Ok (panels, combined), s')
    ∧ panels
      = (λ cat, (cat, mkDF (columns basepair_table)
                            (filter (λ r, category_str r = cat) (rows basepair_table))))
          <$> unique (category_str <$> rows basepair_table)
    ∧ NoDup (panels.*1)
    ∧ (pd ← panels.*2; rows pd) ≡ₚ rows basepair_table
    ∧ columns combined = columns basepair_table
    ∧ rows combined ≡ₚ rows basepair_table
    ∧ Sorted (λ a b, Is_true (String.leb (category_str a) (category_str b)))
             (rows combined).
Proof.
  apply (basepair_plot_panels [basepair_table] 0 basepair_table).
  - reflexivity.
  - split; [apply (bool_decide_unpack _); by vm_compute|]. repeat constructor.
  - apply (bool_decide_unpack _). by vm_compute.
  - repeat constructor; by eexists.
Defined.

(** X17. An index label that is not a string cannot be sliced:
    [basepair_plot] raises a type error before it assigns the category
    column, and the store stays as it was. *)
Theorem basepair_plot_type_error (s : store) (data : ref) (t : DataFrame) :
  s !! data = Some t →
  ¬ Forall (λ r : row, is_Str r.1) (rows t) →
  basepair_plot data s = (Raise TypeError, s).
Proof.
  intros Hs Hnot.
  unfold basepair_plot, mbind, M_bind, bind, read, lift.
  rewrite Hs. unfold index. by rewrite (categories_type_error _ Hnot).
Qed.

Lemma basepair_plot_type_error_witness :
  basepair_plot 0 [absent_key_table] = (Raise TypeError, [absent_key_table]).
Proof.
  apply (basepair_plot_type_error [absent_key_table] 0 absent_key_table).
  - reflexivity.
  - intros H. apply Forall_cons in H as [[k Hk] _]. discriminate Hk.
Defined.

(** ** The rank map *)

Lemma sorted_index_last_go (l : list string) :
  ∀ (d : gmap string nat) (start : nat) (k : string) (i : nat),
    (foldl (λ d kv, <[kv.1:=kv.2]> d) d (zip l (seq start (length l)))) !! k = Some i
    ↔ (∃ j, l !! j = Some k ∧ (∀ j', j < j' → l !! j' ≠ Some k) ∧ i = start + j)
      ∨ ((k ∉ l) ∧ d !! k = Some i).
Proof.
  induction l as [|x l IH]; intros d start k i; simpl.
  - split.
    + intros H. right. split; [apply not_elem_of_nil|done].
    + intros [(j & Hj & _)|[_ H]]; done.
  - rewrite IH. split.
    + intros [(j & Hj & Hlast & ->)|[Hk Hd]].
      * left. exists (S j). split; [done|]. split; [|lia].
        intros [|j'] Hlt; [lia|]. simpl. apply Hlast. lia.
      * destruct (decide (x = k)) as [->|Hne].
        -- rewrite lookup_insert_eq in Hd. injection Hd as <-.
           left. exists 0. split; [done|]. split; [|lia].
           intros [|j'] Hlt; [lia|]. simpl. intros Hj'.
           apply Hk. apply list_elem_of_lookup. by exists j'.
        -- rewrite lookup_insert_ne in Hd by done. right. split; [|done].
           rewrite elem_of_cons. intros [?|?]; congruence.
    + intros [(j & Hj & Hlast & ->)|[Hk Hd]].
      * destruct j as [|j]; simpl in Hj.
        -- injection Hj as ->. right. split.
           ++ intros [j' Hj']%list_elem_of_lookup. by apply (Hlast (S j')); [lia|].
           ++ rewrite lookup_insert_eq. f_equal. lia.
        -- left. exists j. split; [done|]. split; [|lia].
           intros j' Hlt. apply (Hlast (S j')). lia.
      * right. apply not_elem_of_cons in Hk as [Hne Hk]. split; [done|].
        by rewrite lookup_insert_ne.
Qed.

(** X3. The rank map that [reorder_labels] builds from an order sends a
    key to the last position at which the key stands in the order, and a
    key that is not in the order has no rank. *)
Theorem sorted_index_last (order : list string) (k : string) :
  (∀ i, sorted_index order !! k = Some i
        ↔ order !! i = Some k ∧ ∀ j, i < j → order !! j ≠ Some k)
  ∧ (sorted_index order !! k = None ↔ k ∉ order).
Proof.
  split.
  - intros i. unfold sorted_index. rewrite sorted_index_last_go. split.
    + intros [(j & Hj & Hlast & ->)|[_ H]]; [done|]. by rewrite lookup_empty in H.
    + intros [Hi Hlast]. left. by exists i.
  - rewrite <- sorted_index_dom, eq_None_not_Some. done.
Qed.
